(** * Vector-store utilities of the dormitory backend

    A shallow embedding of [LLMintegration/vectorstore_utils.py]: the
    indexer ([add_document_to_vectorstore]), the deleter, the retrievers and
    the result aggregator ([semantic_search]), together with the Python
    built-ins they rely on.

    Conventions.
    - Python [int] is [Z]; Python [str] is [string], read as a sequence of
      code points below 256 (the Latin-1 range).
    - A metadata [dict] is a [gmap string pyval]; a Python [set] of ints is
      a [gset Z].
    - Exceptions: a computation returns [result A]; the type [exn] stands
      for instances of [Exception], which is what [except Exception]
      catches.
    - The embedding model, the Chroma index, the text splitter and the
      Django settings are collaborators: arbitrary, possibly failing
      functions collected in the record [Collaborators].  Every call to
      one of them is appended, with its answer, to the trace of the world.
    - Module globals ([_embedding_function], [_vector_store]) are fields of
      the world.
    - A log record keeps the level and the fixed part of the message.
      Where an f-string formats integer arguments of the operation, the
      formatting is modelled, since it can raise: Python refuses to
      convert an [int] of more than 4300 decimal digits to text.
    - An integer held in chunk metadata is one an index can store, and
      formatting a post id never fails. *)

From Stdlib Require Import ZArith Ascii String List Lia Bool.
From Stdlib Require Import Floats.SpecFloat.
From stdpp Require Import base option list gmap strings pretty.

Local Open Scope Z_scope.

(** ** Exceptions and results *)

Inductive exn : Type :=
| ValueError
| TypeError
| AttributeError
| IndexError
| OverflowError
| OtherException (name : string).

Inductive result (A : Type) : Type :=
| Ok (a : A)
| Raise (e : exn).
Arguments Ok {A} a.
Arguments Raise {A} e.

Definition is_ValueError (e : exn) : bool :=
  match e with ValueError => true | _ => false end.

Definition raised {A} (r : result A) : bool :=
  match r with Ok _ => false | Raise _ => true end.

(** ** Python strings *)

Module PyStr.

Definition code (c : ascii) : nat := nat_of_ascii c.

Definition between (lo hi n : nat) : bool := (lo <=? n)%nat && (n <=? hi)%nat.

(** [str.isspace] on one character, for code points below 256:
    TAB..CR, FS..US, SPACE, NEL and NBSP. *)
Definition isspace (c : ascii) : bool :=
  between 9 13 (code c) || between 28 32 (code c)
  || (code c =? 133)%nat || (code c =? 160)%nat.

Fixpoint lstrip_by (sp : ascii → bool) (cs : list ascii) : list ascii :=
  match cs with
  | [] => []
  | c :: rest => if sp c then lstrip_by sp rest else cs
  end.

Definition strip_by (sp : ascii → bool) (cs : list ascii) : list ascii :=
  rev (lstrip_by sp (rev (lstrip_by sp cs))).

(** [s.strip()] *)
Definition strip (s : string) : string :=
  string_of_list_ascii (strip_by isspace (list_ascii_of_string s)).

(** [s.startswith(p)] *)
Fixpoint startswith (s p : string) : bool :=
  match p with
  | EmptyString => true
  | String a p' =>
      match s with
      | String b s' => Ascii.eqb a b && startswith s' p'
      | EmptyString => false
      end
  end.

(** [s.split(sep)] for a one-character separator: always at least one
    field, empty fields are kept. *)
Fixpoint split (sep : ascii) (s : string) : list string :=
  match s with
  | EmptyString => [EmptyString]
  | String c rest =>
      if Ascii.eqb c sep then EmptyString :: split sep rest
      else match split sep rest with
           | field :: fields => String c field :: fields
           | [] => [String c EmptyString]
           end
  end.

(** *** [int(s)] for a string argument, base 10

    Grammar accepted by CPython: optional white space, an optional sign,
    decimal digits with single underscores allowed between two digits,
    optional white space.  The white space skipped by the integer parser
    is TAB..CR and SPACE, and NEL and NBSP of a non-ASCII string. *)

Definition int_isspace (c : ascii) : bool :=
  between 9 13 (code c) || (code c =? 32)%nat
  || (code c =? 133)%nat || (code c =? 160)%nat.

Definition isdigit (c : ascii) : bool := between 48 57 (code c).

Definition digit_value (c : ascii) : Z := Z.of_nat (code c - 48).

(** Value and number of digits of [digit ("_"? digit)*], read after the
    accumulated value [acc] and [n] digits. *)
Fixpoint digits (cs : list ascii) (acc : Z) (n : nat) : option (Z * nat) :=
  match cs with
  | [] => Some (acc, n)
  | c :: rest =>
      if isdigit c then digits rest (10 * acc + digit_value c) (S n)
      else if Ascii.eqb c "_"%char then
        match rest with
        | d :: _ => if isdigit d then digits rest acc n else None
        | [] => None
        end
      else None
  end.

(** [sys.int_info.default_max_str_digits]: longer digit strings raise
    [ValueError]. *)
Definition INT_MAX_STR_DIGITS : nat := 4300.

Definition int_unsigned (cs : list ascii) : result Z :=
  match cs with
  | c :: _ =>
      if isdigit c then
        match digits cs 0 0 with
        | Some (v, n) =>
            if (INT_MAX_STR_DIGITS <? n)%nat then Raise ValueError else Ok v
        | None => Raise ValueError
        end
      else Raise ValueError
  | [] => Raise ValueError
  end.

Definition int (s : string) : result Z :=
  match strip_by int_isspace (list_ascii_of_string s) with
  | c :: rest =>
      if Ascii.eqb c "-"%char then
        match int_unsigned rest with Ok v => Ok (- v) | Raise e => Raise e end
      else if Ascii.eqb c "+"%char then int_unsigned rest
      else int_unsigned (c :: rest)
  | [] => Raise ValueError
  end.

End PyStr.

(** ** Python lists *)

(** [l[i]] for a non-negative literal index. *)
Definition py_index {A} (l : list A) (i : nat) : result A :=
  match l !! i with
  | Some x => Ok x
  | None => Raise IndexError
  end.

(** [l[start:stop]] with Python's treatment of negative and out-of-range
    bounds. *)
Definition slice_bound (n i : Z) : Z :=
  if i <? 0 then Z.max 0 (i + n) else Z.min i n.

Definition py_slice {A} (l : list A) (start stop : Z) : list A :=
  let n := Z.of_nat (length l) in
  let a := slice_bound n start in
  let b := slice_bound n stop in
  take (Z.to_nat (b - a)) (drop (Z.to_nat a) l).

(** ** Python values stored in chunk metadata

    Chroma accepts strings, integers, floats and booleans as metadata
    values; [dict.get] adds [None].  A float is an IEEE 754 value
    ([spec_float]). *)

Inductive pyval : Type :=
| PyNone
| PyBool (b : bool)
| PyInt (n : Z)
| PyFloat (f : spec_float)
| PyStr (s : string).

(** Truth value of [v] in a condition. *)
Definition py_truthy (v : pyval) : bool :=
  match v with
  | PyNone => false
  | PyBool b => b
  | PyInt n => negb (n =? 0)
  | PyFloat (S754_zero _) => false
  | PyFloat _ => true
  | PyStr s => negb (bool_decide (s = EmptyString))
  end.

(** [int(f)] for a float: truncation towards zero. *)
Definition float_int (f : spec_float) : result Z :=
  match f with
  | S754_zero _ => Ok 0
  | S754_infinity _ => Raise OverflowError
  | S754_nan => Raise ValueError
  | S754_finite s m e =>
      let magnitude :=
        if 0 <=? e then Z.shiftl (Z.pos m) e else Z.shiftr (Z.pos m) (- e) in
      Ok (if s then - magnitude else magnitude)
  end.

(** [int(v)] *)
Definition py_int (v : pyval) : result Z :=
  match v with
  | PyNone => Raise TypeError
  | PyBool b => Ok (if b then 1 else 0)
  | PyInt n => Ok n
  | PyFloat f => float_int f
  | PyStr s => PyStr.int s
  end.

(** [f"{n}"] for an int [n]: the conversion to decimal text raises
    [ValueError] when [n] has more than
    [sys.int_info.default_max_str_digits] digits, the sign not counted. *)
Definition INT_MAX_STR_BOUND : Z :=
  Eval vm_compute in 10 ^ Z.of_nat PyStr.INT_MAX_STR_DIGITS.

Definition int_formattable (n : Z) : bool := Z.abs n <? INT_MAX_STR_BOUND.

Arguments int_formattable : simpl never.

Definition formattable (values : list Z) : bool :=
  forallb int_formattable values.

Arguments formattable : simpl never.

(** Formatting an f-string with the ints [values] in it. *)
Definition format_ints (values : list Z) : result unit :=
  if formattable values then Ok tt else Raise ValueError.

(** [v.startswith(p)] and [v.split(sep)]: only strings have these
    methods. *)
Definition py_startswith (v : pyval) (p : string) : result bool :=
  match v with
  | PyStr s => Ok (PyStr.startswith s p)
  | _ => Raise AttributeError
  end.

Definition py_split (v : pyval) (sep : ascii) : result (list string) :=
  match v with
  | PyStr s => Ok (PyStr.split sep s)
  | _ => Raise AttributeError
  end.

(** [d.get(key)] *)
Definition dict_get (d : gmap string pyval) (key : string) : pyval :=
  match d !! key with
  | Some v => v
  | None => PyNone
  end.

(** ** Documents, configuration, events *)

(** [langchain_core.documents.Document] *)
Record Document : Type := mkDocument {
  page_content : string;
  metadata : gmap string pyval;
  id : option string }.

Definition MAX_TOKENS : Z := 2048.
Definition FALLBACK_CHUNK_SIZE_CHARS : Z := 6144.
Definition FALLBACK_CHUNK_OVERLAP_CHARS : Z :=
  Z.max 0 (FALLBACK_CHUNK_SIZE_CHARS / 5).
Definition ORIGINAL_DOC_ID_KEY : string := "original_doc_id".
Definition CHUNK_INDEX_KEY : string := "chunk_index".

(** [RecursiveCharacterTextSplitter(chunk_size, chunk_overlap,
    length_function=len, is_separator_regex=False)] *)
Record TextSplitter : Type := RecursiveCharacterTextSplitter {
  chunk_size : Z;
  chunk_overlap : Z }.

(** One call to a collaborator, with its answer. *)
Inductive Event : Type :=
| EvGoogleGenerativeAIEmbeddings (model google_api_key : string)
    (r : result unit)
| EvChroma (collection_name persist_directory : string) (r : result unit)
| EvSplitText (splitter : TextSplitter) (text : string)
    (r : result (list string))
| EvAddDocuments (documents : list Document) (ids : list string)
    (r : result unit)
| EvDelete (where_ : gmap string pyval) (r : result unit)
| EvSimilaritySearch (query : string) (k : Z) (r : result (list Document))
| EvMaxMarginalRelevanceSearch (query : string) (k fetch_k : Z)
    (lambda_mult : spec_float) (r : result (list Document))
| EvSimilaritySearchByVector (embedding : list spec_float) (k : Z)
    (r : result (list Document))
| EvMaxMarginalRelevanceSearchByVector (embedding : list spec_float)
    (k fetch_k : Z) (lambda_mult : spec_float) (r : result (list Document)).

Definition event_raised (ev : Event) : bool :=
  match ev with
  | EvGoogleGenerativeAIEmbeddings _ _ r | EvChroma _ _ r => raised r
  | EvSplitText _ _ r => raised r
  | EvAddDocuments _ _ r | EvDelete _ r => raised r
  | EvSimilaritySearch _ _ r | EvMaxMarginalRelevanceSearch _ _ _ _ r
  | EvSimilaritySearchByVector _ _ r
  | EvMaxMarginalRelevanceSearchByVector _ _ _ _ r => raised r
  end.

Definition is_search_event (ev : Event) : bool :=
  match ev with
  | EvSimilaritySearch _ _ _ | EvMaxMarginalRelevanceSearch _ _ _ _ _
  | EvSimilaritySearchByVector _ _ _
  | EvMaxMarginalRelevanceSearchByVector _ _ _ _ _ => true
  | _ => false
  end.

(** Init events are the two constructor calls of the lazy singletons. *)
Definition is_init_event (ev : Event) : bool :=
  match ev with
  | EvGoogleGenerativeAIEmbeddings _ _ _ | EvChroma _ _ _ => true
  | _ => false
  end.

Inductive Level : Type := INFO | WARNING | ERROR.

Definition forget {A} (r : result A) : result unit :=
  match r with Ok _ => Ok tt | Raise e => Raise e end.

(** ** The world: module globals, collaborators' state, trace and log *)

Section Model.

Context {Embeddings VectorStore Ext : Type}.

Record World : Type := mkWorld {
  _embedding_function : option Embeddings;
  _vector_store : option VectorStore;
  ext : Ext;
  trace : list Event;
  logs : list (Level * string) }.

(** The collaborators.  [Ext] is their hidden state (index contents,
    network, ...), threaded through every call. *)
Record Collaborators : Type := mkCollaborators {
  settings_EMBEDDING_API_KEY : result string;
  settings_CHROMA_PERSIST_DIRECTORY : result string;
  GoogleGenerativeAIEmbeddings :
    string → string → Ext → result Embeddings * Ext;
  Chroma : string → Embeddings → string → Ext → result VectorStore * Ext;
  split_text : TextSplitter → string → Ext → result (list string) * Ext;
  add_documents :
    VectorStore → list Document → list string → Ext → result unit * Ext;
  delete : VectorStore → gmap string pyval → Ext → result unit * Ext;
  similarity_search :
    VectorStore → string → Z → Ext → result (list Document) * Ext;
  max_marginal_relevance_search :
    VectorStore → string → Z → Z → spec_float → Ext →
    result (list Document) * Ext;
  similarity_search_by_vector :
    VectorStore → list spec_float → Z → Ext → result (list Document) * Ext;
  max_marginal_relevance_search_by_vector :
    VectorStore → list spec_float → Z → Z → spec_float → Ext →
    result (list Document) * Ext }.

(** *** State and exception monad *)

Definition M (A : Type) : Type := World → result A * World.

Definition ret {A} (a : A) : M A := λ w, (Ok a, w).

Definition bind {A B} (m : M A) (k : A → M B) : M B :=
  λ w, match m w with
       | (Ok a, w') => k a w'
       | (Raise e, w') => (Raise e, w')
       end.

(** [try: m  except Exception as e: h e] *)
Definition try_except {A} (m : M A) (h : exn → M A) : M A :=
  λ w, match m w with
       | (Ok a, w') => (Ok a, w')
       | (Raise e, w') => h e w'
       end.

Definition lift {A} (r : result A) : M A := λ w, (r, w).

Definition log (level : Level) (message : string) : M unit :=
  λ w, (Ok tt,
        mkWorld (_embedding_function w) (_vector_store w) (ext w) (trace w)
                (logs w ++ [(level, message)])).

(** [logger.<level>(f"...{n}...")]: the message is formatted, which may
    raise, before the record is written. *)
Definition log_f (level : Level) (message : string) (values : list Z)
  : M unit :=
  bind (lift (format_ints values)) (λ _, log level message).

Definition read_embedding_function : M (option Embeddings) :=
  λ w, (Ok (_embedding_function w), w).

Definition write_embedding_function (e : Embeddings) : M unit :=
  λ w, (Ok tt, mkWorld (Some e) (_vector_store w) (ext w) (trace w) (logs w)).

Definition read_vector_store : M (option VectorStore) :=
  λ w, (Ok (_vector_store w), w).

Definition write_vector_store (v : VectorStore) : M unit :=
  λ w, (Ok tt,
        mkWorld (_embedding_function w) (Some v) (ext w) (trace w) (logs w)).

(** A call to a collaborator: its state moves on and the call is
    recorded with its answer. *)
Definition call {A} (f : Ext → result A * Ext) (ev : result A → Event)
  : M A :=
  λ w, let '(r, x) := f (ext w) in
       (r, mkWorld (_embedding_function w) (_vector_store w) x
                   (trace w ++ [ev r]) (logs w)).

(** [for x in xs: st = body x st] *)
Fixpoint for_each {X S} (xs : list X) (body : X → S → M S) (st : S) : M S :=
  match xs with
  | [] => ret st
  | x :: rest => bind (body x st) (for_each rest body)
  end.

End Model.

Arguments World : clear implicits.
Arguments Collaborators : clear implicits.
Arguments M : clear implicits.

Declare Scope py_scope.
Delimit Scope py_scope with py.
Notation "x <- m ;; k" := (bind m (λ x, k))
  (at level 100, m at next level, right associativity) : py_scope.
Notation "m ;;; k" := (bind m (λ _, k))
  (at level 100, right associativity) : py_scope.

(** ** The operations of [vectorstore_utils.py] *)

Section Operations.

Context {Embeddings VectorStore Ext : Type}.
Variable env : Collaborators Embeddings VectorStore Ext.

Local Abbreviation M := (M Embeddings VectorStore Ext).
Local Open Scope py_scope.

Definition get_embedding_function : M Embeddings :=
  cached <- read_embedding_function;;
  match cached with
  | None =>
      log INFO "Initializing Google Generative AI embedding model.";;;
      api_key <- lift (settings_EMBEDDING_API_KEY env);;
      e <- call (GoogleGenerativeAIEmbeddings env "models/embedding-001" api_key)
             (λ r, EvGoogleGenerativeAIEmbeddings "models/embedding-001"
                     api_key (forget r));;
      write_embedding_function e;;;
      log INFO "Google Generative AI embedding model initialized.";;;
      ret e
  | Some e => ret e
  end.

Definition get_vector_store : M VectorStore :=
  cached <- read_vector_store;;
  match cached with
  | None =>
      embedding_function <- get_embedding_function;;
      _ <- lift (settings_CHROMA_PERSIST_DIRECTORY env);;
      log INFO "Initializing Chroma vector store at: ";;;
      persist_directory <- lift (settings_CHROMA_PERSIST_DIRECTORY env);;
      v <- call (Chroma env "dormitory_content" embedding_function
                        persist_directory)
             (λ r, EvChroma "dormitory_content" persist_directory (forget r));;
      write_vector_store v;;;
      log INFO "Chroma vector store initialized.";;;
      ret v
  | Some v => ret v
  end.

Definition _get_text_splitter : M TextSplitter :=
  let text_splitter :=
    RecursiveCharacterTextSplitter FALLBACK_CHUNK_SIZE_CHARS
                                   FALLBACK_CHUNK_OVERLAP_CHARS in
  log INFO "Using character-based splitting.";;;
  ret text_splitter.

(** The [for i, chunk_text in enumerate(text_chunks)] loop, from index
    [i] on, appending to the two lists. *)
Fixpoint build_chunks (original_doc_id : string)
    (metadata : gmap string pyval) (i : nat) (text_chunks : list string)
    (documents_to_add : list Document) (chunk_ids_for_db : list string)
  : list Document * list string :=
  match text_chunks with
  | [] => (documents_to_add, chunk_ids_for_db)
  | chunk_text :: rest =>
      let chunk_db_id := original_doc_id +:+ "_chunk_" +:+ pretty i in
      let chunk_metadata :=
        <[CHUNK_INDEX_KEY := PyInt (Z.of_nat i)]>
          (<[ORIGINAL_DOC_ID_KEY := PyStr original_doc_id]> metadata) in
      let doc := mkDocument chunk_text chunk_metadata None in
      build_chunks original_doc_id metadata (S i) rest
                   (documents_to_add ++ [doc])
                   (chunk_ids_for_db ++ [chunk_db_id])
  end.

Definition add_document_to_vectorstore (original_doc_id text_content : string)
    (metadata : gmap string pyval) : M unit :=
  try_except
    (if bool_decide (text_content = "")
        || bool_decide (PyStr.strip text_content = "")
     then
       log WARNING "Text content is empty or whitespace only. Skipping.";;;
       ret tt
     else
       vector_store <- get_vector_store;;
       text_splitter <- _get_text_splitter;;
       text_chunks <- call (split_text env text_splitter text_content)
                        (EvSplitText text_splitter text_content);;
       match text_chunks with
       | [] => log WARNING "No text chunks generated.";;; ret tt
       | _ =>
           let '(documents_to_add, chunk_ids_for_db) :=
             build_chunks original_doc_id metadata 0 text_chunks [] [] in
           match documents_to_add with
           | _ :: _ =>
               call (add_documents env vector_store documents_to_add
                                   chunk_ids_for_db)
                    (EvAddDocuments documents_to_add chunk_ids_for_db);;;
               log INFO "chunks added to vector store."
           | [] => log INFO "No document chunks to add after processing."
           end
       end)
    (λ e, log ERROR "Error adding document (chunked)").

Definition delete_document_from_vectorstore (original_doc_id : string)
  : M unit :=
  try_except
    (vector_store <- get_vector_store;;
     let filter_criteria : gmap string pyval :=
       {[ ORIGINAL_DOC_ID_KEY := PyStr original_doc_id ]} in
     call (delete env vector_store filter_criteria)
          (EvDelete filter_criteria);;;
     log INFO "Attempted deletion of all chunks for document.")
    (λ e, log ERROR "Error deleting document chunks").

Definition search_vectorstore (query : string) (k fetch_k : Z)
    (lambda_mult : spec_float) : M (list Document) :=
  try_except
    (vector_store <- get_vector_store;;
     log INFO "Searching vector store with MMR for query";;;
     results <- call (max_marginal_relevance_search env vector_store query k
                        fetch_k lambda_mult)
                  (EvMaxMarginalRelevanceSearch query k fetch_k lambda_mult);;
     log INFO "Found document chunks for query.";;;
     ret results)
    (λ e, log ERROR "Error searching vector store for query";;; ret []).

(** [if post_id and post_id not in seen_post_ids:
       unique_post_ids.append(post_id); seen_post_ids.add(post_id)]
    where [post_id] is [None] or an int. *)
Definition record_post_id (post_id : option Z) (st : list Z * gset Z)
  : list Z * gset Z :=
  match post_id with
  | Some n =>
      if negb (n =? 0) && bool_decide (n ∉ st.2)
      then (st.1 ++ [n], st.2 ∪ {[n]})
      else st
  | None => st
  end.

(** [v and v.startswith(p)] *)
Definition and_startswith (v : pyval) (p : string) : result bool :=
  if py_truthy v then py_startswith v p else Ok false.

(** [v and (v.startswith(p1) or v.startswith(p2))] *)
Definition and_startswith_either (v : pyval) (p1 p2 : string) : result bool :=
  if py_truthy v then
    match py_startswith v p1 with
    | Ok true => Ok true
    | Ok false => py_startswith v p2
    | Raise e => Raise e
    end
  else Ok false.

(** Body of [for chunk in all_results_chunks]; the state is
    [(unique_post_ids, seen_post_ids)] and [continue] returns it
    unchanged. *)
Definition aggregate_chunk (chunk : Document) (st : list Z * gset Z)
  : M (list Z * gset Z) :=
  if bool_decide (metadata chunk = ∅) then
    log WARNING "Document chunk has no metadata.";;; ret st
  else
    let original_doc_id := dict_get (metadata chunk) ORIGINAL_DOC_ID_KEY in
    try_except
      (is_post <- lift (and_startswith original_doc_id "post_");;
       if is_post : bool then
         fields <- lift (py_split original_doc_id "_");;
         field <- lift (py_index fields 1);;
         post_id <- lift (py_int (PyStr field));;
         ret (record_post_id (Some post_id) st)
       else
         is_child <- lift (and_startswith_either original_doc_id
                             "comment_" "reply_");;
         if is_child : bool then
           let post_id_str := dict_get (metadata chunk) "post_id" in
           if py_truthy post_id_str then
             post_id <- lift (py_int post_id_str);;
             ret (record_post_id (Some post_id) st)
           else
             log WARNING "Chunk is a comment/reply but lacks 'post_id' in metadata.";;;
             ret (record_post_id None st)
         else
           log WARNING "Chunk has an unrecognized original_doc_id format.";;;
           ret st)
      (λ e,
         if is_ValueError e then
           log WARNING "Could not parse post ID";;; ret st
         else
           log ERROR "Unexpected error processing chunk";;; ret st).

(** The first log line formats the budget, [offset] and [limit] before
    the search is made; the last one formats [offset] and [limit] again,
    two lengths and the post ids of the page. *)
Definition semantic_search (query : string) (limit offset : Z)
  : M (list Z) :=
  try_except
    (vector_store <- get_vector_store;;
     let fetch_k_chunks := (offset + limit) * 5 in
     log_f INFO "Searching vector store with similarity search"
           [fetch_k_chunks; offset; limit];;;
     all_results_chunks <-
       call (similarity_search env vector_store query fetch_k_chunks)
            (EvSimilaritySearch query fetch_k_chunks);;
     log INFO "Fetched document chunks for query";;;
     st <- for_each all_results_chunks aggregate_chunk ([], ∅);;
     let unique_post_ids := st.1 in
     let paginated_post_ids :=
       py_slice unique_post_ids offset (offset + limit) in
     log_f INFO "Returning unique Post IDs for the current page"
           [offset; limit];;;
     ret paginated_post_ids)
    (λ e, log ERROR "Error performing paginated similarity search";;;
          ret []).

(** The first log line formats [k] and [fetch_k], whichever search
    follows. *)
Definition search_by_vector (embedding_vector : list spec_float)
    (k fetch_k : Z) (lambda_mult : spec_float) (use_mmr : bool)
  : M (list Document) :=
  try_except
    (vector_store <- get_vector_store;;
     log_f INFO "Searching vector store with MMR by vector" [k; fetch_k];;;
     results <-
       (if use_mmr then
          call (max_marginal_relevance_search_by_vector env vector_store
                  embedding_vector k fetch_k lambda_mult)
               (EvMaxMarginalRelevanceSearchByVector embedding_vector k
                  fetch_k lambda_mult)
        else
          call (similarity_search_by_vector env vector_store
                  embedding_vector k)
               (EvSimilaritySearchByVector embedding_vector k));;
     log INFO "Found document chunks by vector search.";;;
     ret results)
    (λ e, log ERROR "Error searching vector store by vector";;; ret []).

End Operations.

(** ** Pure readings of the aggregator, used to state its properties *)

Section Readings.

Context {Embeddings VectorStore Ext : Type}.

(** The world [w] with the log records [new] appended. *)
Definition add_logs (w : World Embeddings VectorStore Ext)
    (new : list (Level * string)) : World Embeddings VectorStore Ext :=
  mkWorld (_embedding_function w) (_vector_store w) (ext w) (trace w)
          (logs w ++ new).

(** [w'] differs from [w] at most in its log. *)
Definition only_logs (w w' : World Embeddings VectorStore Ext) : Prop :=
  _embedding_function w' = _embedding_function w
  ∧ _vector_store w' = _vector_store w
  ∧ ext w' = ext w
  ∧ trace w' = trace w.

(** The events appended to the trace between [w] and [w']. *)
Definition new_events (w w' : World Embeddings VectorStore Ext)
  : list Event :=
  drop (length (trace w)) (trace w').

(** What a run may add to the trace while obtaining the store: only
    constructor calls, none of them failed when the run succeeds. *)
Definition init_run (w w' : World Embeddings VectorStore Ext)
    (succeeded : bool) : Prop :=
  ∃ evs, trace w' = trace w ++ evs
         ∧ Forall (λ ev, is_init_event ev = true) evs
         ∧ (succeeded = true → Forall (λ ev, event_raised ev = false) evs).

End Readings.

(** The value that the loop body of [semantic_search] hands to [int] for
    one hit, if any: the second underscore-separated field of a [post_]
    id, the [post_id] metadata of a [comment_] or [reply_] hit when it is
    truthy. *)
Definition id_text (chunk : Document) : option pyval :=
  match dict_get (metadata chunk) ORIGINAL_DOC_ID_KEY with
  | PyStr s =>
      if PyStr.startswith s "post_" then PyStr <$> PyStr.split "_" s !! 1%nat
      else if PyStr.startswith s "comment_" || PyStr.startswith s "reply_"
      then
        let post_id_str := dict_get (metadata chunk) "post_id" in
        if py_truthy post_id_str then Some post_id_str else None
      else None
  | _ => None
  end.

(** The post id that the loop body computes for one hit before the test
    [if post_id and post_id not in seen_post_ids]; [None] when the hit is
    passed over ([continue], a caught exception, or [post_id] left at
    [None]).  Lemma [aggregate_chunk_run] proves that the loop body does
    exactly this. *)
Definition parent_id (chunk : Document) : option Z :=
  if bool_decide (metadata chunk = ∅) then None
  else
    match id_text chunk with
    | Some v => match py_int v with Ok n => Some n | Raise _ => None end
    | None => None
    end.

(** Whether [original_doc_id] is a string with one of the three known
    prefixes. *)
Definition recognized_prefix (original_doc_id : pyval) : bool :=
  match original_doc_id with
  | PyStr s =>
      PyStr.startswith s "post_" || PyStr.startswith s "comment_"
      || PyStr.startswith s "reply_"
  | _ => false
  end.

(** Some call to a collaborator raised. *)
Definition some_call_raised (evs : list Event) : Prop :=
  Exists (λ ev, event_raised ev = true) evs.

(** A ranking [top], giving the top [k] hits for every positive [k], is
    prefix-consistent: the top [n] hits are a prefix of the top [m] hits
    for [n ≤ m]. *)
Definition prefix_consistent (top : Z → list Document) : Prop :=
  ∀ n m, 0 < n ≤ m → top n `prefix_of` top m.

(** The similarity searches recorded in [events] were answered from the
    ranking [top]: each search for [k] hits returned [top k].  This is
    what a deterministic search over an unchanged index gives, and it
    constrains only the searches that were made. *)
Definition answered_from (top : Z → list Document) (events : list Event)
  : Prop :=
  ∀ query k answer,
    EvSimilaritySearch query k answer ∈ events → answer = Ok (top k).

(** The whole loop as a fold. *)
Definition collect_unique (hits : list Document) (st : list Z * gset Z)
  : list Z * gset Z :=
  fold_left (λ st chunk, record_post_id (parent_id chunk) st) hits st.

(** The hit stream of one run of [semantic_search], read off the events
    of that run: the answer of the similarity search, or nothing when no
    answer was obtained. *)
Definition hit_stream (events : list Event) : list Document :=
  match last events with
  | Some (EvSimilaritySearch _ _ (Ok hits)) => hits
  | _ => []
  end.

Module Spec.

(** The ids of a hit stream in rank order: one entry per hit that
    resolves to a non-zero parent id. *)
Definition ranked_ids (hits : list Document) : list Z :=
  filter (λ n, n ≠ 0) (omap parent_id hits).

(** Deduplication keeping the first appearance of every id. *)
Fixpoint first_appearances (ids : list Z) : list Z :=
  match ids with
  | [] => []
  | x :: rest => x :: filter (λ y, y ≠ x) (first_appearances rest)
  end.

(** Rank of the first appearance of [x] in [ids]. *)
Fixpoint first_rank (x : Z) (ids : list Z) : option nat :=
  match ids with
  | [] => None
  | y :: rest => if bool_decide (y = x) then Some 0%nat
                 else S <$> first_rank x rest
  end.

(** The text after the kind prefix of an [original_doc_id] of the form
    [<kind>_<numericId>], kind one of post, comment, reply. *)
Definition numeric_suffix (original_doc_id : string) : option string :=
  if PyStr.startswith original_doc_id "post_" then
    Some (String.substring 5 (String.length original_doc_id - 5)
                           original_doc_id)
  else if PyStr.startswith original_doc_id "comment_" then
    Some (String.substring 8 (String.length original_doc_id - 8)
                           original_doc_id)
  else if PyStr.startswith original_doc_id "reply_" then
    Some (String.substring 6 (String.length original_doc_id - 6)
                           original_doc_id)
  else None.

(** Chunk identity and metadata as the contract words them: the key is
    the document id, ["_chunk_"] and the index; the metadata is the
    caller's map united with the two reserved entries, which win. *)
Definition chunk_key (original_doc_id : string) (index : nat) : string :=
  original_doc_id +:+ "_chunk_" +:+ pretty index.

Definition chunk_metadata (caller : gmap string pyval)
    (original_doc_id : string) (index : nat) : gmap string pyval :=
  ({[ ORIGINAL_DOC_ID_KEY := PyStr original_doc_id ]}
   ∪ {[ CHUNK_INDEX_KEY := PyInt (Z.of_nat index) ]})
  ∪ caller.

(** No underscore in [s]. *)
Definition underscore_free (s : string) : Prop :=
  Forall (λ c, c ≠ "_"%char) (list_ascii_of_string s).

(** White space only (the empty text included). *)
Definition whitespace_only (text : string) : Prop :=
  Forall (λ c, PyStr.isspace c = true) (list_ascii_of_string text).

End Spec.

(** ** Concrete collaborators, used to run the operations *)

Module Reference.

Definition chunk (original_doc_id : string)
    (extra : list (string * pyval)) : Document :=
  mkDocument "text"
    (<[ORIGINAL_DOC_ID_KEY := PyStr original_doc_id]> (list_to_map extra))
    None.

(** An in-memory index with a fixed ranking: every search answers with
    the first [k] chunks of [ranking], whatever the query; inserted
    chunks are kept in the state; the splitter cuts a text into its
    lines. *)
Definition memory_index (ranking : list Document)
  : Collaborators unit unit (list Document) :=
  {| settings_EMBEDDING_API_KEY := Ok "key";
     settings_CHROMA_PERSIST_DIRECTORY := Ok "chroma_db";
     GoogleGenerativeAIEmbeddings := λ _ _ x, (Ok tt, x);
     Chroma := λ _ _ _ x, (Ok tt, x);
     split_text := λ _ text x, (Ok (PyStr.split "010" text), x);
     add_documents := λ _ docs _ x, (Ok tt, x ++ docs);
     delete := λ _ _ x, (Ok tt, x);
     similarity_search := λ _ _ k x, (Ok (take (Z.to_nat k) ranking), x);
     max_marginal_relevance_search :=
       λ _ _ k _ _ x, (Ok (take (Z.to_nat k) ranking), x);
     similarity_search_by_vector :=
       λ _ _ k x, (Ok (take (Z.to_nat k) ranking), x);
     max_marginal_relevance_search_by_vector :=
       λ _ _ k _ _ x, (Ok (take (Z.to_nat k) ranking), x) |}.

(** An index that cannot be reached: every call raises. *)
Definition unreachable : Collaborators unit unit unit :=
  let down {A} : result A * unit :=
    (Raise (OtherException "ConnectionError"), tt) in
  {| settings_EMBEDDING_API_KEY := Ok "key";
     settings_CHROMA_PERSIST_DIRECTORY := Ok "chroma_db";
     GoogleGenerativeAIEmbeddings := λ _ _ _, down;
     Chroma := λ _ _ _ _, down;
     split_text := λ _ _ _, down;
     add_documents := λ _ _ _ _, down;
     delete := λ _ _ _, down;
     similarity_search := λ _ _ _ _, down;
     max_marginal_relevance_search := λ _ _ _ _ _ _, down;
     similarity_search_by_vector := λ _ _ _ _, down;
     max_marginal_relevance_search_by_vector := λ _ _ _ _ _ _, down |}.

(** A freshly started process over collaborators in state [x]. *)
Definition fresh {X} (x : X) : World unit unit X :=
  mkWorld None None x [] [].

(** The chunks [docs], inserted under the keys [ids], as a search returns
    them: each with its key as id. *)
Definition returned (docs : list Document) (ids : list string)
  : list Document :=
  zip_with (λ doc key, mkDocument (page_content doc) (metadata doc) (Some key))
           docs ids.

(** Ten chunks of one long post rank first, three other posts follow. *)
Definition long_post_first : list Document :=
  replicate 10 (chunk "post_7" [])
  ++ [chunk "post_1" []; chunk "post_2" []; chunk "post_3" []].

End Reference.

(** ** Filters and further readings of the trace *)

Module Filter.

#[local] Instance spec_float_eq_dec : EqDecision spec_float.
Proof. solve_decision. Defined.

#[local] Instance pyval_eq_dec : EqDecision pyval.
Proof. solve_decision. Defined.

(** A metadata filter of plain values, as [delete(where=...)] takes it:
    a record matches when its metadata has every entry of the filter. *)
Definition matches (where_ : gmap string pyval) (doc : Document) : bool :=
  bool_decide (map_Forall (λ key v, metadata doc !! key = Some v) where_).

End Filter.

Definition is_embeddings_event (ev : Event) : bool :=
  match ev with EvGoogleGenerativeAIEmbeddings _ _ _ => true | _ => false end.

Definition is_chroma_event (ev : Event) : bool :=
  match ev with EvChroma _ _ _ => true | _ => false end.

Definition is_split_event (ev : Event) : bool :=
  match ev with EvSplitText _ _ _ => true | _ => false end.

Definition is_insert_event (ev : Event) : bool :=
  match ev with EvAddDocuments _ _ _ => true | _ => false end.

(** What a retriever answers from the answer of the index. *)
Definition hits_or_nothing {A} (answer : result (list A)) : list A :=
  match answer with Ok hits => hits | Raise _ => [] end.

(** An event that only builds a singleton or searches. *)
Definition init_or_search (ev : Event) : Prop :=
  is_init_event ev || is_search_event ev = true.

(** An event that the indexer may cause. *)
Definition init_split_or_insert (ev : Event) : Prop :=
  is_init_event ev || is_split_event ev || is_insert_event ev = true.

(** The hits [hits] are records of the chunks [docs]: each carries the
    metadata of one of them, under whatever id and with whatever content
    the index returns it. *)
Definition stored_among (docs hits : list Document) : Prop :=
  ∀ hit, hit ∈ hits → ∃ doc, doc ∈ docs ∧ metadata hit = metadata doc.

(** Decimal digits only. *)
Definition all_digits (s : string) : Prop :=
  Forall (λ c, PyStr.isdigit c = true) (list_ascii_of_string s).

(** * Properties *)

(** Closed goals about concrete runs: evaluate each conjunct. *)
Ltac by_running :=
  repeat match goal with |- _ ∧ _ => split end; by vm_compute.

(** ** The monad and the loop *)

Section Runs.

Context {Embeddings VectorStore Ext : Type}.
Variable env : Collaborators Embeddings VectorStore Ext.

Local Abbreviation World := (World Embeddings VectorStore Ext).

Lemma only_logs_refl (w : World) : only_logs w w.
Proof. by repeat split. Qed.

Lemma only_logs_trans (w1 w2 w3 : World) :
  only_logs w1 w2 → only_logs w2 w3 → only_logs w1 w3.
Proof.
  intros (?&?&?&?) (?&?&?&?). repeat split; congruence.
Qed.

Lemma only_logs_log level message (w : World) :
  only_logs w (log level message w).2.
Proof. by repeat split. Qed.

Lemma new_events_app (w w' : World) evs :
  trace w' = trace w ++ evs → new_events w w' = evs.
Proof. intros H. unfold new_events. by rewrite H, drop_app_length. Qed.

Lemma new_events_only_logs (w w' : World) :
  only_logs w w' → new_events w w' = [].
Proof.
  intros (_&_&_&H). unfold new_events. by rewrite H, drop_all.
Qed.

(** The loop body either records the parent id of the hit or leaves the
    state alone; it never raises and only writes to the log. *)
Lemma aggregate_chunk_run chunk st (w : World) :
  (aggregate_chunk chunk st w).1 = Ok (record_post_id (parent_id chunk) st)
  ∧ only_logs w (aggregate_chunk chunk st w).2.
Proof.
  unfold aggregate_chunk, parent_id, id_text.
  destruct (bool_decide (metadata chunk = ∅)); [by repeat split|].
  unfold try_except, bind, lift, and_startswith, and_startswith_either.
  destruct (dict_get (metadata chunk) ORIGINAL_DOC_ID_KEY)
    as [|[]|n|[]|s]; simpl; try (by repeat split).
  - destruct (n =? 0); by repeat split.
  - case_bool_decide; simpl; [subst; by repeat split|].
    destruct (PyStr.startswith s "post_") eqn:Hpost; simpl.
    + unfold py_index.
      destruct (PyStr.split "_" s !! 1%nat) as [field|]; simpl;
        [|by repeat split].
      destruct (PyStr.int field) as [n|[]]; by repeat split.
    + destruct (PyStr.startswith s "comment_"); simpl.
      * destruct (py_truthy (dict_get (metadata chunk) "post_id"));
          [|by repeat split].
        destruct (py_int (dict_get (metadata chunk) "post_id")) as [n|[]];
          by repeat split.
      * destruct (PyStr.startswith s "reply_"); simpl; [|by repeat split].
        destruct (py_truthy (dict_get (metadata chunk) "post_id"));
          [|by repeat split].
        destruct (py_int (dict_get (metadata chunk) "post_id")) as [n|[]];
          by repeat split.
Qed.

Lemma for_each_aggregate hits st (w : World) :
  (for_each hits aggregate_chunk st w).1 = Ok (collect_unique hits st)
  ∧ only_logs w (for_each hits aggregate_chunk st w).2.
Proof.
  revert st w. induction hits as [|chunk hits IH]; intros st w; simpl.
  - split; [done | apply only_logs_refl].
  - unfold bind.
    destruct (aggregate_chunk_run chunk st w) as [Hr Hw].
    destruct (aggregate_chunk chunk st w) as [[st'|e] w']; simpl in *;
      [|done].
    injection Hr as ->.
    destruct (IH (record_post_id (parent_id chunk) st) w') as [Hr' Hw'].
    split; [done | by eapply only_logs_trans].
Qed.

Ltac init_run_with evs :=
  exists evs; simpl; rewrite ?app_nil_r, <- ?app_assoc;
  split; [done | split; [repeat constructor | intros; repeat constructor]];
  done.

Lemma get_vector_store_run (w : World) :
  init_run w (get_vector_store env w).2
           (negb (raised (get_vector_store env w).1))
  ∧ ∀ v, (get_vector_store env w).1 = Ok v →
         _vector_store (get_vector_store env w).2 = Some v.
Proof.
  unfold get_vector_store, get_embedding_function, bind, lift, call,
    read_vector_store, read_embedding_function; simpl.
  destruct (_vector_store w) as [v|] eqn:Hv; simpl.
  { split; [init_run_with (@nil Event) | by intros ? [= <-]]. }
  destruct (_embedding_function w) as [e|]; simpl.
  - destruct (settings_CHROMA_PERSIST_DIRECTORY env) as [dir|]; simpl;
      [|split; [init_run_with (@nil Event) | done]].
    destruct (Chroma env _ e dir (ext w)) as [[v|err] x]; simpl.
    + split; [|by intros ? [= <-]].
      init_run_with [EvChroma "dormitory_content" dir (Ok tt)].
    + split; [|done].
      init_run_with [EvChroma "dormitory_content" dir (Raise err)].
  - destruct (settings_EMBEDDING_API_KEY env) as [key|]; simpl;
      [|split; [init_run_with (@nil Event) | done]].
    destruct (GoogleGenerativeAIEmbeddings env _ key (ext w))
      as [[e|err] x]; simpl.
    + destruct (settings_CHROMA_PERSIST_DIRECTORY env) as [dir|]; simpl.
      * destruct (Chroma env _ e dir x) as [[v|err] x']; simpl.
        -- split; [|by intros ? [= <-]].
           init_run_with
             [EvGoogleGenerativeAIEmbeddings "models/embedding-001" key
                (Ok tt);
              EvChroma "dormitory_content" dir (Ok tt)].
        -- split; [|done].
           init_run_with
             [EvGoogleGenerativeAIEmbeddings "models/embedding-001" key
                (Ok tt);
              EvChroma "dormitory_content" dir (Raise err)].
      * split; [|done].
        init_run_with
          [EvGoogleGenerativeAIEmbeddings "models/embedding-001" key
             (Ok tt)].
    + split; [|done].
      init_run_with
        [EvGoogleGenerativeAIEmbeddings "models/embedding-001" key
           (Raise err)].
Qed.

(** The bound is the least integer of 4301 digits. *)
Lemma INT_MAX_STR_BOUND_eq :
  INT_MAX_STR_BOUND = 10 ^ Z.of_nat PyStr.INT_MAX_STR_DIGITS.
Proof.
  change (Z.of_nat PyStr.INT_MAX_STR_DIGITS) with (100 * 43).
  rewrite Z.pow_mul_r by done. by vm_compute.
Qed.

(** Smaller non-negative ints format when larger ones do. *)
Lemma int_formattable_le a b :
  0 ≤ a ≤ b → int_formattable b = true → int_formattable a = true.
Proof.
  unfold int_formattable. generalize INT_MAX_STR_BOUND.
  intros bound Hab Hb. apply Z.ltb_lt in Hb. apply Z.ltb_lt. lia.
Qed.

(** One run of [semantic_search], step by step. *)
Lemma semantic_search_run query limit offset (w : World) :
  let run := semantic_search env query limit offset w in
  let k := (offset + limit) * 5 in
  match get_vector_store env w with
  | (Raise _, w1) => run.1 = Ok [] ∧ trace run.2 = trace w1
  | (Ok v, w1) =>
      _vector_store run.2 = _vector_store w1
      ∧ if formattable [k; offset; limit] then
          let answer := similarity_search env v query k (ext w1) in
          trace run.2 = trace w1 ++ [EvSimilaritySearch query k answer.1]
          ∧ run.1 = Ok match answer.1 with
                       | Ok hits =>
                           py_slice (collect_unique hits ([], ∅)).1 offset
                                    (offset + limit)
                       | Raise _ => []
                       end
        else run.1 = Ok [] ∧ trace run.2 = trace w1
  end.
Proof.
  unfold semantic_search, try_except, bind, call, log_f, lift, format_ints,
    formattable.
  destruct (get_vector_store env w) as [[v|e] w1]; simpl; [|done].
  destruct (int_formattable ((offset + limit) * 5)); simpl; [|done].
  destruct (int_formattable offset); simpl; [|done].
  destruct (int_formattable limit); simpl; [|done].
  destruct (similarity_search env v query _ (ext w1)) as [[hits|e] x];
    simpl; [|done].
  match goal with
  | |- context [for_each hits aggregate_chunk ?st ?w0] =>
      destruct (for_each_aggregate hits st w0) as [Hr (_&Hv&_&Ht)];
      destruct (for_each hits aggregate_chunk st w0) as [[st'|e] w2]
  end; simpl in *; [|done].
  injection Hr as ->. by rewrite Ht, Hv.
Qed.

Lemma get_vector_store_cached (w : World) v :
  _vector_store w = Some v → get_vector_store env w = (Ok v, w).
Proof.
  intros Hv. unfold get_vector_store, bind, read_vector_store.
  by rewrite Hv.
Qed.

End Runs.

(** ** Deduplication and pagination *)

Section Dedup.

Import Spec.

Lemma first_appearances_elem_of ids x :
  x ∈ first_appearances ids ↔ x ∈ ids.
Proof.
  induction ids as [|y ids IH]; simpl; [done|].
  rewrite !elem_of_cons, list_elem_of_filter, IH.
  destruct (decide (x = y)); intuition congruence.
Qed.

Lemma first_appearances_NoDup ids : NoDup (first_appearances ids).
Proof.
  induction ids as [|y ids IH]; simpl; [constructor|].
  apply NoDup_cons. split; [|by apply NoDup_filter].
  rewrite list_elem_of_filter. intuition congruence.
Qed.

(** Walking the stream from the left: a new id goes to the end. *)
Lemma first_appearances_snoc ids z :
  first_appearances (ids ++ [z])
  = first_appearances ids ++ (if decide (z ∈ ids) then [] else [z]).
Proof.
  induction ids as [|y ids IH]; simpl; [done|].
  rewrite IH, filter_app. f_equal. f_equal.
  destruct (decide (z ∈ ids)) as [Hin|Hin].
  - rewrite decide_True by (by right). done.
  - destruct (decide (z = y)) as [->|Hne].
    + rewrite decide_True by (by left).
      by rewrite filter_cons_False by intuition congruence.
    + rewrite decide_False by (rewrite elem_of_cons; intuition congruence).
      by rewrite filter_cons_True.
Qed.

Lemma first_rank_elem_of x ids :
  x ∈ ids → ∃ a, first_rank x ids = Some a ∧ (a < length ids)%nat.
Proof.
  induction ids as [|y ids IH]; [by intros ?%elem_of_nil|].
  intros Hin. simpl. case_bool_decide as Hy.
  - exists 0%nat. split; [done | lia].
  - apply elem_of_cons in Hin as [->|Hin]; [done|].
    destruct (IH Hin) as (a & -> & Ha). exists (S a). split; [done | lia].
Qed.

Lemma first_rank_app_l x ids more a :
  first_rank x ids = Some a → first_rank x (ids ++ more) = Some a.
Proof.
  revert a. induction ids as [|y ids IH]; intros a; simpl; [done|].
  case_bool_decide; [done|].
  destruct (first_rank x ids) as [b|]; [|done].
  intros [= <-]. by rewrite (IH b).
Qed.

Lemma first_rank_fresh x ids :
  x ∉ ids → first_rank x (ids ++ [x]) = Some (length ids).
Proof.
  induction ids as [|y ids IH]; simpl; intros Hin.
  - by rewrite bool_decide_eq_true_2.
  - apply not_elem_of_cons in Hin as [Hne Hin].
    rewrite bool_decide_eq_false_2 by done. by rewrite IH.
Qed.

(** Ids come out in the order of their first appearance. *)
Lemma first_appearances_ranked ids i j x y :
  (i < j)%nat →
  first_appearances ids !! i = Some x →
  first_appearances ids !! j = Some y →
  ∃ a b, first_rank x ids = Some a ∧ first_rank y ids = Some b
         ∧ (a < b)%nat.
Proof.
  revert i j x y. induction ids as [|z ids IH] using rev_ind;
    intros i j x y Hij Hi Hj; [done|].
  rewrite first_appearances_snoc in Hi, Hj.
  destruct (decide (z ∈ ids)) as [Hz|Hz].
  - rewrite app_nil_r in Hi, Hj.
    destruct (IH i j x y Hij Hi Hj) as (a & b & Ha & Hb & Hab).
    exists a, b. by rewrite (first_rank_app_l _ _ _ _ Ha),
                            (first_rank_app_l _ _ _ _ Hb).
  - assert (Hx : first_appearances ids !! i = Some x).
    { apply lookup_lt_Some in Hj. rewrite length_app in Hj. simpl in Hj.
      rewrite lookup_app_l in Hi by lia. done. }
    assert (x ∈ ids) as Hxin.
    { apply first_appearances_elem_of. by eapply list_elem_of_lookup_2. }
    destruct (first_rank_elem_of x ids Hxin) as (a & Ha & Hlt).
    destruct (decide (j < length (first_appearances ids))%nat) as [Hjl|Hjl].
    + rewrite lookup_app_l in Hj by done.
      destruct (IH i j x y Hij Hx Hj) as (a' & b & Ha' & Hb & Hab).
      exists a', b. by rewrite (first_rank_app_l _ _ _ _ Ha'),
                               (first_rank_app_l _ _ _ _ Hb).
    + rewrite lookup_app_r in Hj by lia.
      apply list_lookup_singleton_Some in Hj as [_ <-].
      exists a, (length ids). rewrite (first_rank_app_l _ _ _ _ Ha).
      by rewrite first_rank_fresh.
Qed.

(** The loop computes the first appearances of the ranked ids. *)
Lemma collect_unique_first_appearances hits u (seen : gset Z) :
  (∀ x, x ∈ seen ↔ x ∈ u) →
  (collect_unique hits (u, seen)).1
  = u ++ filter (λ x, x ∉ u) (first_appearances (ranked_ids hits)).
Proof.
  revert u seen. induction hits as [|chunk hits IH]; intros u seen Hseen.
  { simpl. by rewrite app_nil_r. }
  change (collect_unique (chunk :: hits) (u, seen))
    with (collect_unique hits (record_post_id (parent_id chunk) (u, seen))).
  change (ranked_ids (chunk :: hits))
    with (filter (λ n, n ≠ 0)
            (match parent_id chunk with
             | Some n => n :: omap parent_id hits
             | None => omap parent_id hits
             end)).
  destruct (parent_id chunk) as [n|]; simpl; [|by apply IH].
  destruct (Z.eqb_spec n 0) as [->|Hn]; simpl.
  { rewrite filter_cons_False by intuition congruence. by apply IH. }
  rewrite (filter_cons_True (λ n, n ≠ 0)) by done. simpl.
  fold (ranked_ids hits).
  case_bool_decide as Hin; simpl; rewrite Hseen in Hin.
  - rewrite IH.
    + rewrite filter_cons_True by done. rewrite <- app_assoc. simpl.
      do 2 f_equal. rewrite list_filter_filter. apply list_filter_iff.
      intros x. rewrite not_elem_of_app, list_elem_of_singleton. done.
    + intros x. rewrite elem_of_union, elem_of_singleton, elem_of_app,
        list_elem_of_singleton, Hseen. done.
  - assert (n ∈ u) by (by destruct (decide (n ∈ u))).
    rewrite (IH _ _ Hseen).
    rewrite filter_cons_False by intuition congruence.
    f_equal. rewrite list_filter_filter. apply list_filter_iff.
    intros x. split; [|tauto]. intros Hx. split; [done|]. by intros ->.
Qed.

Lemma collect_unique_spec hits :
  (collect_unique hits ([], ∅)).1 = first_appearances (ranked_ids hits).
Proof.
  rewrite collect_unique_first_appearances by set_solver.
  simpl. induction (first_appearances _) as [|x l IH]; [done|].
  rewrite filter_cons_True by set_solver. by rewrite IH.
Qed.

Lemma py_slice_sublist {A} (l : list A) start stop :
  py_slice l start stop `sublist_of` l.
Proof.
  unfold py_slice. etrans; [apply sublist_take | apply sublist_drop].
Qed.

Lemma py_slice_beyond {A} (l : list A) start stop :
  Z.of_nat (length l) ≤ start → py_slice l start stop = [].
Proof.
  intros Hlen. unfold py_slice, slice_bound.
  destruct (Z.ltb_spec start 0); [lia|].
  replace (Z.to_nat _) with 0%nat; [done|].
  destruct (Z.ltb_spec stop 0); lia.
Qed.

Lemma py_slice_nil {A} start stop : py_slice (@nil A) start stop = [].
Proof. unfold py_slice. by rewrite drop_nil, take_nil. Qed.

Lemma py_slice_nonneg {A} (l : list A) start stop :
  0 ≤ start ≤ stop →
  py_slice l start stop
  = take (Z.to_nat (stop - start)) (drop (Z.to_nat start) l).
Proof.
  intros [Hstart Hstop]. unfold py_slice, slice_bound.
  destruct (Z.ltb_spec start 0); [lia|].
  destruct (Z.ltb_spec stop 0); [lia|].
  destruct (Z.le_gt_cases (Z.of_nat (length l)) start) as [Hge|Hlt].
  { rewrite !drop_ge by lia. by rewrite !take_nil. }
  rewrite (Z.min_l start) by lia.
  destruct (Z.le_gt_cases stop (Z.of_nat (length l))) as [Hle|Hgt].
  { by rewrite (Z.min_l stop) by lia. }
  rewrite (Z.min_r stop) by lia.
  rewrite !take_ge; [done|rewrite length_drop; lia..].
Qed.

Lemma first_appearances_prefix ids more :
  first_appearances ids `prefix_of` first_appearances (ids ++ more).
Proof.
  induction more as [|z more IH] using rev_ind.
  { by rewrite app_nil_r. }
  rewrite app_assoc, first_appearances_snoc.
  etrans; [apply IH | by apply prefix_app_r].
Qed.

Lemma ranked_ids_app hits more :
  ranked_ids (hits ++ more) = ranked_ids hits ++ ranked_ids more.
Proof. unfold ranked_ids. by rewrite omap_app, filter_app. Qed.

(** More hits only add unique ids at the end. *)
Lemma unique_ids_prefix hits hits' :
  hits `prefix_of` hits' →
  first_appearances (ranked_ids hits)
    `prefix_of` first_appearances (ranked_ids hits').
Proof.
  intros [more ->]. rewrite ranked_ids_app. apply first_appearances_prefix.
Qed.

Lemma collect_unique_nonzero hits u (seen : gset Z) :
  0 ∉ u → 0 ∉ (collect_unique hits (u, seen)).1.
Proof.
  revert u seen. induction hits as [|chunk hits IH]; intros u seen Hu;
    [done|].
  change (collect_unique (chunk :: hits) (u, seen))
    with (collect_unique hits (record_post_id (parent_id chunk) (u, seen))).
  unfold record_post_id.
  destruct (parent_id chunk) as [n|]; [|by apply IH]. simpl.
  destruct (Z.eqb_spec n 0); simpl; [by apply IH|].
  case_bool_decide; [|by apply IH].
  apply IH. rewrite not_elem_of_app, list_elem_of_singleton. done.
Qed.

End Dedup.

(** ** The result aggregator *)

Section Aggregator.

Context {Embeddings VectorStore Ext : Type}.
Variable env : Collaborators Embeddings VectorStore Ext.

Local Abbreviation World := (World Embeddings VectorStore Ext).

Lemma hit_stream_init evs :
  Forall (λ ev, is_init_event ev = true) evs → hit_stream evs = [].
Proof.
  intros Hinit. unfold hit_stream.
  destruct (last evs) as [ev|] eqn:Hlast; [|done].
  apply last_Some_elem_of in Hlast.
  rewrite Forall_forall in Hinit. specialize (Hinit ev Hlast).
  by destruct ev.
Qed.

(** The result of a run in terms of the hit stream of that run. *)
Lemma semantic_search_result query limit offset (w : World) :
  let run := semantic_search env query limit offset w in
  run.1 = Ok (py_slice (collect_unique (hit_stream (new_events w run.2))
                                       ([], ∅)).1
                       offset (offset + limit)).
Proof.
  intros run. subst run.
  pose proof (semantic_search_run env query limit offset w) as Hrun.
  destruct (get_vector_store_run env w) as [(init & Htr & Hinit & _) _].
  destruct (get_vector_store env w) as [[v|e] w1]; simpl in *.
  - destruct Hrun as [_ Hrun].
    destruct (formattable _).
    + destruct Hrun as [Ht ->]. rewrite Htr, <- app_assoc in Ht.
      rewrite (new_events_app _ _ _ Ht). unfold hit_stream.
      rewrite last_snoc.
      destruct (similarity_search env v query _ (ext w1)).1; [done|].
      unfold collect_unique. simpl. by rewrite py_slice_nil.
    + destruct Hrun as [-> Ht]. rewrite Htr in Ht.
      rewrite (new_events_app _ _ _ Ht), hit_stream_init by done.
      unfold collect_unique. simpl. by rewrite py_slice_nil.
  - destruct Hrun as [-> Ht]. rewrite Htr in Ht.
    rewrite (new_events_app _ _ _ Ht), hit_stream_init by done.
    unfold collect_unique. simpl. by rewrite py_slice_nil.
Qed.

(** The hit stream of a run is the answer of the index to the one
    similarity search of the run, and nothing when no answer was
    obtained. *)
Lemma hit_stream_answer query limit offset (w : World) :
  let run := semantic_search env query limit offset w in
  let k := (offset + limit) * 5 in
  hit_stream (new_events w run.2)
  = match get_vector_store env w with
    | (Ok v, w1) =>
        if formattable [k; offset; limit] then
          hits_or_nothing (similarity_search env v query k (ext w1)).1
        else []
    | (Raise _, _) => []
    end.
Proof.
  intros run k. subst run k.
  pose proof (semantic_search_run env query limit offset w) as Hrun.
  destruct (get_vector_store_run env w) as [(init & Htr & Hinit & _) _].
  destruct (get_vector_store env w) as [[v|e] w1]; simpl in *.
  - destruct Hrun as [_ Hrun].
    destruct (formattable _).
    + destruct Hrun as [Ht _]. rewrite Htr, <- app_assoc in Ht.
      rewrite (new_events_app _ _ _ Ht). unfold hit_stream.
      rewrite last_snoc.
      by destruct (similarity_search env v query _ (ext w1)).1.
    + destruct Hrun as [_ Ht]. rewrite Htr in Ht.
      by rewrite (new_events_app _ _ _ Ht), hit_stream_init.
  - destruct Hrun as [_ Ht]. rewrite Htr in Ht.
    by rewrite (new_events_app _ _ _ Ht), hit_stream_init.
Qed.

Lemma semantic_search_never_zero query limit offset (w : World) ids :
  (semantic_search env query limit offset w).1 = Ok ids → 0 ∉ ids.
Proof.
  rewrite semantic_search_result. intros [= <-] Hin.
  eapply collect_unique_nonzero; [apply not_elem_of_nil|].
  eapply elem_of_sublist; [exact Hin | apply py_slice_sublist].
Qed.

(** C1: [semantic_search] always returns a list of ids without
    duplicates.  The hit stream is the answer of the index to the
    similarity search for [(offset + limit) * 5] chunks (nothing when the
    store, the log line or the search failed); the result is the slice
    [offset : offset + limit] of the ids of that stream, deduplicated in
    the order of their first appearance, and it is empty when [offset] is
    at or beyond the number of unique ids. *)
Theorem semantic_search_unique_ranked_page query limit offset (w : World) :
  let run := semantic_search env query limit offset w in
  let k := (offset + limit) * 5 in
  let stream :=
    match get_vector_store env w with
    | (Ok v, w1) =>
        if formattable [k; offset; limit] then
          hits_or_nothing (similarity_search env v query k (ext w1)).1
        else []
    | (Raise _, _) => []
    end in
  let ids := Spec.ranked_ids stream in
  let unique := Spec.first_appearances ids in
  hit_stream (new_events w run.2) = stream
  ∧ run.1 = Ok (py_slice unique offset (offset + limit))
  ∧ NoDup (py_slice unique offset (offset + limit))
  ∧ NoDup unique
  ∧ (∀ x, x ∈ unique ↔ x ∈ ids)
  ∧ (∀ i j x y, (i < j)%nat → unique !! i = Some x → unique !! j = Some y →
       ∃ a b, Spec.first_rank x ids = Some a ∧ Spec.first_rank y ids = Some b
              ∧ (a < b)%nat)
  ∧ (Z.of_nat (length unique) ≤ offset → run.1 = Ok []).
Proof.
  intros run k stream ids unique.
  assert (Hstream : hit_stream (new_events w run.2) = stream).
  { apply hit_stream_answer. }
  assert (Hrun : run.1 = Ok (py_slice unique offset (offset + limit))).
  { subst unique ids. rewrite <- Hstream. subst run.
    rewrite semantic_search_result. by rewrite collect_unique_spec. }
  split; [done|]. split; [done|]. split.
  { eapply sublist_NoDup; [apply first_appearances_NoDup|].
    apply py_slice_sublist. }
  split; [apply first_appearances_NoDup|].
  split; [apply first_appearances_elem_of|].
  split; [apply first_appearances_ranked|].
  intros Hbeyond. by rewrite Hrun, py_slice_beyond.
Qed.

End Aggregator.

(** ** Pagination *)

Section Pagination.

Context {Embeddings VectorStore Ext : Type}.
Variable env : Collaborators Embeddings VectorStore Ext.

Local Abbreviation World := (World Embeddings VectorStore Ext).

(** A run whose store is available, whose log line can be formatted and
    whose search was answered from [top] returns the page of the unique
    ids of [top k], and leaves the store cached. *)
Lemma semantic_search_answered query top limit offset (w : World) :
  raised (get_vector_store env w).1 = false →
  formattable [(offset + limit) * 5; offset; limit] = true →
  let run := semantic_search env query limit offset w in
  answered_from top (new_events w run.2) →
  run.1 = Ok (py_slice (Spec.first_appearances
                          (Spec.ranked_ids (top ((offset + limit) * 5))))
                       offset (offset + limit))
  ∧ ∃ v, _vector_store run.2 = Some v.
Proof.
  intros Hstore Hformat run Htop. subst run.
  pose proof (semantic_search_run env query limit offset w) as Hrun.
  destruct (get_vector_store_run env w) as [(init & Htr & _) Hcached].
  destruct (get_vector_store env w) as [[v|e] w1]; simpl in *; [|done].
  rewrite Hformat in Hrun. destruct Hrun as (Hv & Ht & ->).
  rewrite Htr, <- app_assoc in Ht. rewrite (new_events_app _ _ _ Ht) in Htop.
  rewrite (Htop query ((offset + limit) * 5) _)
    by (apply elem_of_app; right; apply list_elem_of_here).
  rewrite collect_unique_spec.
  split; [done|]. exists v. rewrite Hv. by apply Hcached.
Qed.

(** C2 (amended): when the searches of the three runs are answered from
    one prefix-consistent ranking, and the ten chunks fetched for the
    first page already hold two unique ids (or the twenty chunks fetched
    later hold no further unique id), the pages [limit=2, offset=0] and
    [limit=2, offset=2] concatenate to the page [limit=4, offset=0]. *)
Theorem pagination_consistent query top (w w' : World) :
  prefix_consistent top →
  raised (get_vector_store env w).1 = false →
  raised (get_vector_store env w').1 = false →
  (2 ≤ length (Spec.first_appearances (Spec.ranked_ids (top 10%Z)))
   ∨ length (Spec.first_appearances (Spec.ranked_ids (top 20%Z)))
     ≤ length (Spec.first_appearances (Spec.ranked_ids (top 10%Z))))%nat →
  let page1 := semantic_search env query 2 0 w in
  let page2 := semantic_search env query 2 2 page1.2 in
  let both := semantic_search env query 4 0 w' in
  answered_from top (new_events w page1.2) →
  answered_from top (new_events page1.2 page2.2) →
  answered_from top (new_events w' both.2) →
  ∃ ids1 ids2, page1.1 = Ok ids1 ∧ page2.1 = Ok ids2
               ∧ both.1 = Ok (ids1 ++ ids2).
Proof.
  intros Hprefix Hw Hw' Htwo page1 page2 both Htop1 Htop2 Htop3.
  destruct (semantic_search_answered query top 2 0 w Hw) as [H1 [v Hv]];
    [by vm_compute | exact Htop1 |].
  fold page1 in H1, Hv.
  assert (Hw1 : raised (get_vector_store env page1.2).1 = false).
  { by rewrite (get_vector_store_cached env _ v Hv). }
  destruct (semantic_search_answered query top 2 2 page1.2 Hw1) as [H2 _];
    [by vm_compute | exact Htop2 |].
  destruct (semantic_search_answered query top 4 0 w' Hw') as [H3 _];
    [by vm_compute | exact Htop3 |].
  fold page2 in H2. fold both in H3.
  eexists _, _. split; [exact H1|]. split; [exact H2|].
  rewrite H3. f_equal.
  destruct (unique_ids_prefix (top 10) (top 20)) as [rest Hrest];
    [apply Hprefix; lia|].
  rewrite !py_slice_nonneg by lia.
  change ((0 + 4) * 5) with 20. change ((2 + 2) * 5) with 20.
  change ((0 + 2) * 5) with 10.
  change (Z.to_nat (0 + 4 - 0)) with 4%nat.
  change (Z.to_nat (0 + 2 - 0)) with 2%nat.
  change (Z.to_nat (2 + 2 - 2)) with 2%nat.
  change (Z.to_nat 0) with 0%nat. change (Z.to_nat 2) with 2%nat.
  rewrite !drop_0.
  rewrite <- (take_take_drop _ 2 2). f_equal.
  rewrite Hrest. destruct Htwo as [Htwo|Hsame].
  - by rewrite !take_app_le by done.
  - rewrite Hrest, length_app in Hsame.
    rewrite (nil_length_inv rest) by lia. by rewrite app_nil_r.
Qed.

End Pagination.

(** The searches of a run over the in-memory index are answered from its
    ranking. *)
Lemma memory_index_answered ranking query limit offset w :
  answered_from (λ k, take (Z.to_nat k) ranking)
    (new_events w (semantic_search (Reference.memory_index ranking) query
                                   limit offset w).2).
Proof.
  intros q k answer Hin.
  pose proof (semantic_search_run (Reference.memory_index ranking) query
                limit offset w) as Hrun.
  destruct (get_vector_store_run (Reference.memory_index ranking) w)
    as [(init & Htr & Hinit & _) _].
  destruct (get_vector_store (Reference.memory_index ranking) w)
    as [[v|e] w1]; simpl in *.
  - destruct Hrun as [_ Hrun]. destruct (formattable _).
    + destruct Hrun as [Ht _]. rewrite Htr, <- app_assoc in Ht.
      rewrite (new_events_app _ _ _ Ht) in Hin.
      apply elem_of_app in Hin as [Hin|Hin].
      * rewrite Forall_forall in Hinit. by apply Hinit in Hin.
      * by apply list_elem_of_singleton in Hin as [= -> -> ->].
    + destruct Hrun as [_ Ht]. rewrite Htr in Ht.
      rewrite (new_events_app _ _ _ Ht) in Hin.
      rewrite Forall_forall in Hinit. by apply Hinit in Hin.
  - destruct Hrun as [_ Ht]. rewrite Htr in Ht.
    rewrite (new_events_app _ _ _ Ht) in Hin.
    rewrite Forall_forall in Hinit. by apply Hinit in Hin.
Qed.

Lemma take_prefix_consistent {A} (ranking : list A) n m :
  n ≤ m → take (Z.to_nat n) ranking `prefix_of` take (Z.to_nat m) ranking.
Proof.
  intros Hnm.
  exists (take (Z.to_nat m - Z.to_nat n) (drop (Z.to_nat n) ranking)).
  rewrite take_take_drop. f_equal. lia.
Qed.

(** C2 as stated fails: ten chunks of one post fill the budget of the
    first page, which comes back one id short; the second page starts
    after two ids all the same.  The index is as the claim asks: every
    search for [k] hits, in whatever state, returns the first [k] hits of
    one ranking and leaves the state alone. *)
Lemma pagination_gap :
  let index := Reference.memory_index Reference.long_post_first in
  let top := λ k, take (Z.to_nat k) Reference.long_post_first in
  let page1 := semantic_search index "dorm" 2 0 (Reference.fresh []) in
  let page2 := semantic_search index "dorm" 2 2 page1.2 in
  let both := semantic_search index "dorm" 4 0 page2.2 in
  (∀ v k x, similarity_search index v "dorm" k x = (Ok (top k), x))
  ∧ (∀ n m, n ≤ m → top n `prefix_of` top m)
  ∧ page1.1 = Ok [7] ∧ page2.1 = Ok [2; 3] ∧ both.1 = Ok [7; 1; 2; 3]
  ∧ [7] ++ [2; 3] ≠ [7; 1; 2; 3].
Proof.
  intros index top page1 page2 both.
  split; [done|]. split; [intros n m; apply take_prefix_consistent|].
  by_running.
Qed.

Lemma pagination_consistent_witness :
  let index := Reference.memory_index (drop 9 Reference.long_post_first) in
  let page1 := semantic_search index "dorm" 2 0 (Reference.fresh []) in
  let page2 := semantic_search index "dorm" 2 2 page1.2 in
  let both := semantic_search index "dorm" 4 0 (Reference.fresh []) in
  ∃ ids1 ids2, page1.1 = Ok ids1 ∧ page2.1 = Ok ids2
               ∧ both.1 = Ok (ids1 ++ ids2).
Proof.
  apply (pagination_consistent
           (Reference.memory_index (drop 9 Reference.long_post_first)) "dorm"
           (λ k, take (Z.to_nat k) (drop 9 Reference.long_post_first))).
  - intros n m Hnm. apply take_prefix_consistent. lia.
  - reflexivity.
  - reflexivity.
  - left. vm_compute. lia.
  - apply memory_index_answered.
  - apply memory_index_answered.
  - apply memory_index_answered.
Defined.

(** ** Which hits contribute an id *)

Section Hits.

Context {Embeddings VectorStore Ext : Type}.

Local Abbreviation World := (World Embeddings VectorStore Ext).

Lemma startswith_child_not_post s :
  PyStr.startswith s "comment_" || PyStr.startswith s "reply_" = true →
  PyStr.startswith s "post_" = false.
Proof.
  destruct s as [|c s]; [done|]. cbn [PyStr.startswith].
  destruct (Ascii.eqb_spec "p" c) as [<-|]; [by vm_compute | done].
Qed.

Lemma dict_get_nonempty (d : gmap string pyval) key s :
  dict_get d key = PyStr s → bool_decide (d = ∅) = false.
Proof.
  intros Hget. apply bool_decide_eq_false. intros ->.
  unfold dict_get in Hget. by rewrite lookup_empty in Hget.
Qed.

(** A hit that contributes no id changes nothing: the loop goes on as
    if the hit were not in the stream. *)
Lemma passed_over chunk :
  (∀ st, record_post_id (parent_id chunk) st = st) →
  ∀ before after st (w : World),
    (for_each (before ++ chunk :: after) aggregate_chunk st w).1
    = (for_each (before ++ after) aggregate_chunk st w).1.
Proof.
  intros Hskip before after st w.
  rewrite !(proj1 (for_each_aggregate _ _ _)). f_equal.
  unfold collect_unique. rewrite !fold_left_app. simpl. by rewrite Hskip.
Qed.

Lemma parent_id_child chunk s :
  dict_get (metadata chunk) ORIGINAL_DOC_ID_KEY = PyStr s →
  PyStr.startswith s "comment_" || PyStr.startswith s "reply_" = true →
  parent_id chunk
  = match metadata chunk !! "post_id" with
    | Some v =>
        if py_truthy v then
          match py_int v with Ok n => Some n | Raise _ => None end
        else None
    | None => None
    end.
Proof.
  intros Hid Hchild. unfold parent_id, id_text.
  rewrite (dict_get_nonempty _ _ _ Hid), Hid.
  rewrite (startswith_child_not_post _ Hchild), Hchild.
  unfold dict_get. destruct (metadata chunk !! "post_id") as [v|]; [|done].
  by destruct (py_truthy v).
Qed.

(** C3: a [comment_] or [reply_] hit takes its parent id from the
    [post_id] entry of its metadata, whatever follows the prefix in its
    [original_doc_id]; without that entry the hit is passed over and the
    loop goes on with the remaining hits. *)
Theorem comment_reply_parent_from_metadata chunk s st (w : World) :
  dict_get (metadata chunk) ORIGINAL_DOC_ID_KEY = PyStr s →
  PyStr.startswith s "comment_" || PyStr.startswith s "reply_" = true →
  (aggregate_chunk chunk st w).1
  = Ok match metadata chunk !! "post_id" with
       | Some v =>
           if py_truthy v then
             match py_int v with
             | Ok n => record_post_id (Some n) st
             | Raise _ => st
             end
           else st
       | None => st
       end
  ∧ (metadata chunk !! "post_id" = None →
     ∀ before after st0 (w0 : World),
       (for_each (before ++ chunk :: after) aggregate_chunk st0 w0).1
       = (for_each (before ++ after) aggregate_chunk st0 w0).1).
Proof.
  intros Hid Hchild.
  pose proof (parent_id_child chunk s Hid Hchild) as Hparent. split.
  - rewrite (proj1 (aggregate_chunk_run chunk st w)), Hparent. f_equal.
    destruct (metadata chunk !! "post_id") as [v|]; [|done].
    destruct (py_truthy v); [|done]. by destruct (py_int v).
  - intros Hnone. apply passed_over. intros st'.
    by rewrite Hparent, Hnone.
Qed.

Lemma id_text_unrecognized chunk :
  recognized_prefix (dict_get (metadata chunk) ORIGINAL_DOC_ID_KEY) = false →
  id_text chunk = None.
Proof.
  unfold id_text, recognized_prefix.
  destruct (dict_get (metadata chunk) ORIGINAL_DOC_ID_KEY) as [| | | |s];
    try done.
  intros [[-> ->]%orb_false_elim ->]%orb_false_elim. done.
Qed.

Lemma split_underscore_free s :
  Spec.underscore_free s → PyStr.split "_" s = [s].
Proof.
  unfold Spec.underscore_free.
  induction s as [|c s IH]; [done|]. simpl list_ascii_of_string.
  intros [Hc Hs]%Forall_cons. cbn [PyStr.split].
  destruct (Ascii.eqb_spec c "_"); [done|]. by rewrite IH.
Qed.

Lemma id_text_post chunk suffix :
  dict_get (metadata chunk) ORIGINAL_DOC_ID_KEY = PyStr ("post_" +:+ suffix) →
  Spec.underscore_free suffix →
  id_text chunk = Some (PyStr suffix).
Proof.
  intros Hid Hfree. unfold id_text. rewrite Hid.
  change (PyStr.startswith ("post_" +:+ suffix) "post_")
    with (PyStr.startswith suffix "").
  replace (PyStr.startswith suffix "") with true by (by destruct suffix).
  change (PyStr.split "_" ("post_" +:+ suffix))
    with ("post" :: PyStr.split "_" suffix).
  by rewrite split_underscore_free.
Qed.

(** C4 (amended): a hit whose [original_doc_id] has none of the three
    prefixes, or whose text handed to [int] does not parse, is passed
    over without an exception and the loop goes on with the remaining
    hits.  The text handed to [int] is the second underscore-separated
    field of a [post_] id, which is all that follows the prefix when
    that has no underscore, and the [post_id] metadata of a comment or
    reply. *)
Theorem unparsable_hit_skipped chunk st (w : World) :
  recognized_prefix (dict_get (metadata chunk) ORIGINAL_DOC_ID_KEY) = false
  ∨ (∃ v e, id_text chunk = Some v ∧ py_int v = Raise e)
  ∨ (∃ suffix e,
       dict_get (metadata chunk) ORIGINAL_DOC_ID_KEY
       = PyStr ("post_" +:+ suffix)
       ∧ Spec.underscore_free suffix ∧ PyStr.int suffix = Raise e) →
  (aggregate_chunk chunk st w).1 = Ok st
  ∧ ∀ before after st0 (w0 : World),
      (for_each (before ++ chunk :: after) aggregate_chunk st0 w0).1
      = (for_each (before ++ after) aggregate_chunk st0 w0).1.
Proof.
  intros Hcase.
  assert (Hparent : parent_id chunk = None).
  { unfold parent_id. destruct (bool_decide _); [done|].
    destruct Hcase
      as [Hprefix|[(v & e & -> & ->)|(suffix & e & Hid & Hfree & Hint)]];
      [by rewrite id_text_unrecognized | done |].
    rewrite (id_text_post chunk suffix Hid Hfree). simpl. by rewrite Hint. }
  split.
  - by rewrite (proj1 (aggregate_chunk_run chunk st w)), Hparent.
  - apply passed_over. intros st'. by rewrite Hparent.
Qed.

(** C10: a hit whose parent id comes out as 0 ([post_0], any hit whose
    text handed to [int] converts to 0, a comment or reply whose
    [post_id] converts to 0), and a comment or reply whose [post_id] is
    the empty string, contributes nothing: no exception, the state is
    unchanged and the loop goes on; the id 0 is never part of a
    result. *)
Theorem zero_post_id_excluded chunk st (w : World) :
  dict_get (metadata chunk) ORIGINAL_DOC_ID_KEY = PyStr "post_0"
  ∨ (∃ v, id_text chunk = Some v ∧ py_int v = Ok 0)
  ∨ (∃ s, dict_get (metadata chunk) ORIGINAL_DOC_ID_KEY = PyStr s
          ∧ PyStr.startswith s "comment_" || PyStr.startswith s "reply_"
            = true
          ∧ (py_int (dict_get (metadata chunk) "post_id") = Ok 0
             ∨ metadata chunk !! "post_id" = Some (PyStr ""))) →
  (aggregate_chunk chunk st w).1 = Ok st
  ∧ (∀ before after st0 (w0 : World),
       (for_each (before ++ chunk :: after) aggregate_chunk st0 w0).1
       = (for_each (before ++ after) aggregate_chunk st0 w0).1)
  ∧ ∀ (env : Collaborators Embeddings VectorStore Ext) query limit offset
      (w0 : World) ids,
      (semantic_search env query limit offset w0).1 = Ok ids → 0 ∉ ids.
Proof.
  intros Hcase.
  assert (Hskip : ∀ st', record_post_id (parent_id chunk) st' = st').
  { intros st'.
    destruct Hcase as [Hid|[(v & Htext & Hint)|(s & Hid & Hchild & Hzero)]].
    - unfold parent_id, id_text.
      by rewrite (dict_get_nonempty _ _ _ Hid), Hid.
    - unfold parent_id. rewrite Htext, Hint. by destruct (bool_decide _).
    - rewrite (parent_id_child chunk s Hid Hchild).
      unfold dict_get in Hzero.
      destruct (metadata chunk !! "post_id") as [v|]; [|done].
      destruct Hzero as [Hzero|[= ->]]; [|done]. simpl in Hzero.
      destruct (py_truthy v); [|done]. by rewrite Hzero. }
  split; [|split].
  - by rewrite (proj1 (aggregate_chunk_run chunk st w)), Hskip.
  - by apply passed_over.
  - intros env query limit offset w0 ids.
    apply semantic_search_never_zero.
Qed.

End Hits.

(** ** The indexer *)

Section Indexer.

Context {Embeddings VectorStore Ext : Type}.
Variable env : Collaborators Embeddings VectorStore Ext.

Local Abbreviation World := (World Embeddings VectorStore Ext).

Lemma chunk_metadata_inserts caller original_doc_id index :
  <[CHUNK_INDEX_KEY := PyInt (Z.of_nat index)]>
    (<[ORIGINAL_DOC_ID_KEY := PyStr original_doc_id]> caller)
  = Spec.chunk_metadata caller original_doc_id index.
Proof.
  unfold Spec.chunk_metadata. apply map_eq. intros key.
  destruct (decide (key = CHUNK_INDEX_KEY)) as [->|Hc].
  { rewrite lookup_insert_eq. symmetry.
    apply lookup_union_Some_l, lookup_union_Some_raw. right.
    split; [done | apply lookup_singleton_eq]. }
  rewrite lookup_insert_ne by done.
  destruct (decide (key = ORIGINAL_DOC_ID_KEY)) as [->|Ho].
  { rewrite lookup_insert_eq. symmetry.
    apply lookup_union_Some_l, lookup_union_Some_l, lookup_singleton_eq. }
  rewrite lookup_insert_ne by done. symmetry.
  rewrite lookup_union_r; [done|].
  apply lookup_union_None. by rewrite !lookup_singleton_ne.
Qed.

(** The loop appends, for the [j]-th remaining text, the chunk of index
    [i + j]. *)
Lemma build_chunks_imap original_doc_id caller i text_chunks docs ids :
  build_chunks original_doc_id caller i text_chunks docs ids
  = (docs ++ imap (λ j text,
                     mkDocument text
                       (Spec.chunk_metadata caller original_doc_id (i + j))
                       None) text_chunks,
     ids ++ imap (λ j _, Spec.chunk_key original_doc_id (i + j))
                 text_chunks).
Proof.
  revert i docs ids.
  induction text_chunks as [|text rest IH]; intros i docs ids;
    cbn [build_chunks].
  { by rewrite !imap_nil, !app_nil_r. }
  rewrite IH, <- !app_assoc, chunk_metadata_inserts, !imap_cons.
  rewrite Nat.add_0_r. fold (Spec.chunk_key original_doc_id i). cbn [app].
  rewrite (imap_ext (_ ∘ S)
             (λ j text, mkDocument text
                (Spec.chunk_metadata caller original_doc_id (S i + j)) None))
    by (intros; cbn [compose]; rewrite Nat.add_succ_r; reflexivity).
  rewrite (imap_ext (_ ∘ S)
             (λ j _, Spec.chunk_key original_doc_id (S i + j)) rest)
    by (intros; cbn [compose]; rewrite Nat.add_succ_r; reflexivity).
  reflexivity.
Qed.

Local Arguments build_chunks : simpl never.

(** One run of [add_document_to_vectorstore]: it never raises; after
    the constructor calls, if any, it calls the splitter at most once
    and then inserts at most once, the chunks built from the splitter's
    answer. *)
Lemma add_document_run original_doc_id text caller (w : World) :
  let run := add_document_to_vectorstore env original_doc_id text caller w in
  run.1 = Ok tt
  ∧ ∃ init tail,
      trace run.2 = trace w ++ init ++ tail
      ∧ Forall (λ ev, is_init_event ev = true) init
      ∧ (tail = []
         ∨ (∃ splitter answer, tail = [EvSplitText splitter text answer])
         ∨ (∃ splitter text_chunks answer,
              let built :=
                build_chunks original_doc_id caller 0 text_chunks [] [] in
              tail = [EvSplitText splitter text (Ok text_chunks);
                      EvAddDocuments built.1 built.2 answer])).
Proof.
  unfold add_document_to_vectorstore, try_except, bind, call,
    _get_text_splitter.
  destruct (_ || _); simpl.
  { split; [done|]. exists [], []. rewrite !app_nil_r. auto. }
  destruct (get_vector_store_run env w) as [(init & Htr & Hinit & _) _].
  destruct (get_vector_store env w) as [[v|e] w1]; simpl in *.
  2:{ split; [done|]. exists init, []. rewrite app_nil_r. auto. }
  destruct (split_text env _ text (ext w1)) as [[text_chunks|e] x]; simpl.
  2:{ split; [done|]. eexists init, [_]. rewrite Htr, <- app_assoc.
      split; [done|]. split; [done|]. right; left. eauto. }
  destruct text_chunks as [|text1 rest]; simpl.
  { split; [done|]. eexists init, [_]. rewrite Htr, <- app_assoc.
    split; [done|]. split; [done|]. right; left. eauto. }
  destruct (build_chunks original_doc_id caller 0 (text1 :: rest) [] [])
    as [documents_to_add chunk_ids_for_db] eqn:Hbuilt.
  destruct documents_to_add as [|doc docs]; simpl.
  { split; [done|]. eexists init, [_]. rewrite Htr, <- app_assoc.
    split; [done|]. split; [done|]. right; left. eauto. }
  destruct (add_documents env v (doc :: docs) chunk_ids_for_db x)
    as [[[]|e] x']; simpl.
  all: split; [done|]; eexists init, [_; _];
    rewrite Htr, <- !app_assoc; simpl;
    (split; [done|]); (split; [done|]); right; right;
    exists (RecursiveCharacterTextSplitter FALLBACK_CHUNK_SIZE_CHARS
              FALLBACK_CHUNK_OVERLAP_CHARS), (text1 :: rest);
    eexists; rewrite Hbuilt; reflexivity.
Qed.

(** The batch handed to the index is built from the answer of the
    splitter, chunk by chunk. *)
Lemma inserted_batch original_doc_id text caller (w : World) docs ids answer :
  let run := add_document_to_vectorstore env original_doc_id text caller w in
  EvAddDocuments docs ids answer ∈ new_events w run.2 →
  ∃ splitter text_chunks,
    EvSplitText splitter text (Ok text_chunks) ∈ new_events w run.2
    ∧ docs = imap (λ i chunk_text,
                     mkDocument chunk_text
                       (Spec.chunk_metadata caller original_doc_id i) None)
                  text_chunks
    ∧ ids = imap (λ i _, Spec.chunk_key original_doc_id i) text_chunks.
Proof.
  intros run Hin. subst run.
  destruct (add_document_run original_doc_id text caller w)
    as (_ & init & tail & Htr & Hinit & Htail).
  rewrite (new_events_app _ _ _ Htr) in Hin |- *.
  apply elem_of_app in Hin as [Hin|Hin].
  { rewrite Forall_forall in Hinit. by apply Hinit in Hin. }
  destruct Htail as [->|[(splitter & r & ->)|(splitter & chunks & r & ->)]].
  - by apply elem_of_nil in Hin.
  - by apply list_elem_of_singleton in Hin.
  - apply elem_of_cons in Hin as [[=]|Hin]; [|done..].
    apply list_elem_of_singleton in Hin as [= -> -> ->].
    exists splitter, chunks. rewrite build_chunks_imap. simpl.
    split; [|done]. rewrite elem_of_app. right. by left.
Qed.

Lemma chunk_metadata_lookup caller original_doc_id index :
  let m := Spec.chunk_metadata caller original_doc_id index in
  m !! ORIGINAL_DOC_ID_KEY = Some (PyStr original_doc_id)
  ∧ m !! CHUNK_INDEX_KEY = Some (PyInt (Z.of_nat index))
  ∧ ∀ key, key ≠ ORIGINAL_DOC_ID_KEY → key ≠ CHUNK_INDEX_KEY →
           m !! key = caller !! key.
Proof.
  intros m. subst m. rewrite <- chunk_metadata_inserts.
  split; [by rewrite lookup_insert_ne, lookup_insert_eq|].
  split; [by rewrite lookup_insert_eq|].
  intros key Ho Hc. by rewrite !lookup_insert_ne.
Qed.

(** C6: every chunk handed to the index has the key
    [original_doc_id + "_chunk_" + i] and the caller's metadata extended
    with the two reserved entries, which replace any entries the caller
    supplied under those keys. *)
Theorem chunk_identity_and_metadata original_doc_id text caller (w : World)
    docs ids answer :
  let run := add_document_to_vectorstore env original_doc_id text caller w in
  EvAddDocuments docs ids answer ∈ new_events w run.2 →
  length ids = length docs
  ∧ ∀ i d, docs !! i = Some d →
      ids !! i = Some (original_doc_id +:+ "_chunk_" +:+ pretty i)
      ∧ metadata d = Spec.chunk_metadata caller original_doc_id i
      ∧ metadata d !! ORIGINAL_DOC_ID_KEY = Some (PyStr original_doc_id)
      ∧ metadata d !! CHUNK_INDEX_KEY = Some (PyInt (Z.of_nat i))
      ∧ ∀ key, key ≠ ORIGINAL_DOC_ID_KEY → key ≠ CHUNK_INDEX_KEY →
               metadata d !! key = caller !! key.
Proof.
  intros run Hin.
  destruct (inserted_batch _ _ _ _ _ _ _ Hin)
    as (splitter & chunks & _ & -> & ->).
  split; [by rewrite !length_imap|].
  intros i d Hd. rewrite list_lookup_imap in Hd. rewrite list_lookup_imap.
  destruct (chunks !! i) as [chunk_text|]; [|done].
  injection Hd as <-. split; [done|]. split; [done|].
  apply chunk_metadata_lookup.
Qed.

(** C7: the chunks of one insertion carry the indices 0, 1, ..., n-1 in
    the order in which the splitter produced their texts, all under the
    same [original_doc_id]. *)
Theorem chunk_indices_contiguous original_doc_id text caller (w : World)
    docs ids answer :
  let run := add_document_to_vectorstore env original_doc_id text caller w in
  EvAddDocuments docs ids answer ∈ new_events w run.2 →
  ∃ splitter text_chunks,
    EvSplitText splitter text (Ok text_chunks) ∈ new_events w run.2
    ∧ page_content <$> docs = text_chunks
    ∧ (λ d, metadata d !! CHUNK_INDEX_KEY) <$> docs
      = (λ i, Some (PyInt (Z.of_nat i))) <$> seq 0 (length docs)
    ∧ Forall (λ d, metadata d !! ORIGINAL_DOC_ID_KEY
                   = Some (PyStr original_doc_id)) docs.
Proof.
  intros run Hin.
  destruct (inserted_batch _ _ _ _ _ _ _ Hin)
    as (splitter & chunks & Hsplit & -> & _).
  exists splitter, chunks. split; [done|]. rewrite length_imap.
  split; [|split].
  - apply list_eq. intros i.
    rewrite list_lookup_fmap, list_lookup_imap.
    by destruct (chunks !! i).
  - apply list_eq. intros i.
    rewrite !list_lookup_fmap, list_lookup_imap.
    destruct (chunks !! i) as [chunk_text|] eqn:Hi.
    + rewrite lookup_seq_lt by (by eapply lookup_lt_Some). simpl.
      f_equal. apply chunk_metadata_lookup.
    + rewrite lookup_seq_ge by (by apply lookup_ge_None). done.
  - apply Forall_forall. intros d [i Hd]%list_elem_of_lookup.
    rewrite list_lookup_imap in Hd.
    destruct (chunks !! i); [|done]. injection Hd as <-.
    apply chunk_metadata_lookup.
Qed.

Lemma strip_whitespace_only text :
  Spec.whitespace_only text → PyStr.strip text = "".
Proof.
  unfold Spec.whitespace_only, PyStr.strip, PyStr.strip_by.
  intros Hall.
  assert (PyStr.lstrip_by PyStr.isspace (list_ascii_of_string text) = [])
    as ->; [|done].
  induction Hall as [|c cs Hc _ IH]; [done|]. simpl. by rewrite Hc.
Qed.

(** C8: a text that is empty or white space only is not indexed: the
    call returns normally, no collaborator is called, nothing but the
    log changes. *)
Theorem blank_text_not_indexed original_doc_id text caller (w : World) :
  Spec.whitespace_only text →
  let run := add_document_to_vectorstore env original_doc_id text caller w in
  run.1 = Ok tt ∧ only_logs w run.2 ∧ new_events w run.2 = [].
Proof.
  intros Hblank run. subst run.
  unfold add_document_to_vectorstore, try_except, bind.
  rewrite (strip_whitespace_only _ Hblank), orb_true_r. simpl.
  split; [done|]. split; [by repeat split|].
  apply new_events_only_logs. by repeat split.
Qed.

End Indexer.

(** ** Fetch budget and failure absorption *)

Section Retrieval.

Context {Embeddings VectorStore Ext : Type}.
Variable env : Collaborators Embeddings VectorStore Ext.

Local Abbreviation World := (World Embeddings VectorStore Ext).

Lemma filter_search_init evs :
  Forall (λ ev, is_init_event ev = true) evs →
  filter (λ ev, is_search_event ev = true) evs = [].
Proof.
  induction 1 as [|ev evs Hev _ IH]; [done|].
  rewrite filter_cons_False; [done|]. by destruct ev.
Qed.


Lemma no_call_raised evs ev :
  Forall (λ ev, event_raised ev = false) evs → event_raised ev = false →
  ¬ some_call_raised (evs ++ [ev]).
Proof.
  intros Hevs Hev [Hex|Hex]%Exists_app.
  - apply Exists_exists in Hex as (ev' & Hin & Hraised).
    rewrite Forall_forall in Hevs. apply Hevs in Hin. congruence.
  - apply Exists_exists in Hex as (ev' & ->%list_elem_of_singleton & ?).
    congruence.
Qed.

(** The common shape of the two retrievers: obtain the store, write a
    log line that formats [values], call one search, return its answer;
    any exception becomes the empty list. *)
Lemma guarded_search_run {A} (search : VectorStore → Ext → result (list A) * Ext)
    (ev : result (list A) → Event) before values after failed (w : World) :
  (∀ r, event_raised (ev r) = raised r) →
  let run :=
    try_except
      (bind (get_vector_store env) (λ vector_store,
       bind (log_f INFO before values) (λ _,
       bind (call (search vector_store) ev) (λ results,
       bind (log INFO after) (λ _, ret results)))))
      (λ e, bind (log ERROR failed) (λ _, ret [])) w in
  ∃ results, run.1 = Ok results
             ∧ (some_call_raised (new_events w run.2) → results = []).
Proof.
  intros Hev. unfold try_except, bind, call, log_f, lift, format_ints.
  destruct (get_vector_store_run env w) as [(init & Htr & _ & Hok) _].
  destruct (get_vector_store env w) as [[v|e] w1]; simpl in *;
    [|by eexists].
  destruct (formattable values); simpl; [|by eexists].
  destruct (search v (ext w1)) as [[results|e] x] eqn:Hsearch; simpl;
    [|by eexists].
  exists results. split; [done|]. intros Hraised. exfalso.
  rewrite (new_events_app _ _ (init ++ [ev (Ok results)])) in Hraised
    by (by rewrite Htr, <- app_assoc).
  eapply no_call_raised; [by apply Hok| |done]. by rewrite Hev.
Qed.

(** C9: no public operation raises, whatever the collaborators do: the
    three searches return the empty list as soon as a call to a
    collaborator raised, and indexing and deletion return normally. *)
Theorem collaborator_failures_absorbed (w : World) :
  (∀ query k fetch_k lambda_mult,
     let run := search_vectorstore env query k fetch_k lambda_mult w in
     ∃ results, run.1 = Ok results
                ∧ (some_call_raised (new_events w run.2) → results = []))
  ∧ (∀ query limit offset,
       let run := semantic_search env query limit offset w in
       ∃ ids, run.1 = Ok ids
              ∧ (some_call_raised (new_events w run.2) → ids = []))
  ∧ (∀ embedding_vector k fetch_k lambda_mult use_mmr,
       let run := search_by_vector env embedding_vector k fetch_k
                                   lambda_mult use_mmr w in
       ∃ results, run.1 = Ok results
                  ∧ (some_call_raised (new_events w run.2) → results = []))
  ∧ (∀ original_doc_id text_content metadata,
       (add_document_to_vectorstore env original_doc_id text_content
                                    metadata w).1 = Ok tt)
  ∧ (∀ original_doc_id,
       (delete_document_from_vectorstore env original_doc_id w).1 = Ok tt).
Proof.
  split; [|split; [|split; [|split]]].
  - intros query k fetch_k lambda_mult.
    by apply (guarded_search_run
                (λ v, max_marginal_relevance_search env v query k fetch_k
                        lambda_mult)
                (EvMaxMarginalRelevanceSearch query k fetch_k lambda_mult)
                "Searching vector store with MMR for query" []).
  - intros query limit offset run. subst run.
    pose proof (semantic_search_run env query limit offset w) as Hrun.
    destruct (get_vector_store_run env w) as [(init & Htr & _ & Hok) _].
    destruct (get_vector_store env w) as [[v|e] w1]; simpl in *;
      [|destruct Hrun as [-> _]; by eexists].
    destruct Hrun as [_ Hrun].
    destruct (formattable _); [|destruct Hrun as [-> _]; by eexists].
    destruct Hrun as (Ht & ->).
    destruct (similarity_search env v query _ (ext w1)).1 as [hits|e];
      [|by eexists].
    eexists. split; [done|]. intros Hraised. exfalso.
    rewrite (new_events_app _ _ (init ++ [EvSimilaritySearch query
               ((offset + limit) * 5) (Ok hits)])) in Hraised
      by (by rewrite Ht, Htr, <- app_assoc).
    eapply no_call_raised; [by apply Hok| |done]. done.
  - intros embedding_vector k fetch_k lambda_mult [] run; subst run;
      by apply guarded_search_run.
  - intros. apply add_document_run.
  - intros original_doc_id.
    unfold delete_document_from_vectorstore, try_except, bind, call.
    destruct (get_vector_store env w) as [[v|e] w1]; simpl; [|done].
    by destruct (delete env v _ (ext w1)) as [[[]|e] x].
Qed.

End Retrieval.

(** ** The theorems at work on concrete hits and texts *)

Lemma comment_reply_parent_from_metadata_witness :
  let hit := Reference.chunk "comment_9" [("post_id", PyStr "41")] in
  let orphan := Reference.chunk "reply_9" [] in
  let w := Reference.fresh ([] : list Document) in
  (aggregate_chunk hit ([], ∅) w).1 = Ok (record_post_id (Some 41) ([], ∅))
  ∧ (aggregate_chunk orphan ([], ∅) w).1 = Ok ([], ∅)
  ∧ (for_each [hit; orphan; hit] aggregate_chunk ([], ∅) w).1
    = (for_each [hit; hit] aggregate_chunk ([], ∅) w).1.
Proof.
  intros hit orphan w. split; [|split].
  - exact (proj1 (comment_reply_parent_from_metadata hit "comment_9" ([], ∅) w
                    eq_refl eq_refl)).
  - exact (proj1 (comment_reply_parent_from_metadata orphan "reply_9" ([], ∅) w
                    eq_refl eq_refl)).
  - exact (proj2 (comment_reply_parent_from_metadata orphan "reply_9" ([], ∅) w
                    eq_refl eq_refl) eq_refl [hit] [hit] ([], ∅) w).
Defined.

(** C4 as stated fails: the text after the prefix is not an integer, yet
    the hit is not passed over.  For a [post_] id only the field up to the
    next underscore is parsed; for a comment the text after the prefix is
    never parsed. *)
Lemma malformed_suffix_not_skipped :
  let hit1 := Reference.chunk "post_12_extra" [] in
  let hit2 := Reference.chunk "comment_x" [("post_id", PyStr "41")] in
  let index := Reference.memory_index [hit1; hit2] in
  Spec.numeric_suffix "post_12_extra" = Some "12_extra"
  ∧ PyStr.int "12_extra" = Raise ValueError
  ∧ Spec.numeric_suffix "comment_x" = Some "x"
  ∧ PyStr.int "x" = Raise ValueError
  ∧ (semantic_search index "dorm" 20 0 (Reference.fresh [])).1 = Ok [12; 41].
Proof. by_running. Qed.

Lemma unparsable_hit_skipped_witness :
  let widget := Reference.chunk "widget_3" [] in
  let garbled := Reference.chunk "post_abc" [] in
  let w := Reference.fresh ([] : list Document) in
  (aggregate_chunk widget ([5], {[5]}) w).1 = Ok ([5], {[5]})
  ∧ (aggregate_chunk garbled ([5], {[5]}) w).1 = Ok ([5], {[5]}).
Proof.
  intros widget garbled w. split.
  - apply (unparsable_hit_skipped widget ([5], {[5]}) w). left. reflexivity.
  - apply (unparsable_hit_skipped garbled ([5], {[5]}) w). right. right.
    exists "abc", ValueError. split; [reflexivity|].
    split; [repeat constructor; discriminate | reflexivity].
Defined.

Lemma zero_post_id_excluded_witness :
  let zero := Reference.chunk "post_0" [] in
  let zeros := Reference.chunk "post_00_x" [] in
  let child := Reference.chunk "comment_4" [("post_id", PyStr "0")] in
  let blank := Reference.chunk "reply_4" [("post_id", PyStr "")] in
  let w := Reference.fresh ([] : list Document) in
  (aggregate_chunk zero ([5], {[5]}) w).1 = Ok ([5], {[5]})
  ∧ (aggregate_chunk zeros ([5], {[5]}) w).1 = Ok ([5], {[5]})
  ∧ (aggregate_chunk child ([5], {[5]}) w).1 = Ok ([5], {[5]})
  ∧ (aggregate_chunk blank ([5], {[5]}) w).1 = Ok ([5], {[5]}).
Proof.
  intros zero zeros child blank w. split; [|split; [|split]].
  - apply (zero_post_id_excluded zero ([5], {[5]}) w). left. reflexivity.
  - apply (zero_post_id_excluded zeros ([5], {[5]}) w). right. left.
    exists (PyStr "00"). split; reflexivity.
  - apply (zero_post_id_excluded child ([5], {[5]}) w). right. right.
    exists "comment_4". split; [reflexivity|]. split; [reflexivity|].
    left. reflexivity.
  - apply (zero_post_id_excluded blank ([5], {[5]}) w). right. right.
    exists "reply_4". split; [reflexivity|]. split; [reflexivity|].
    right. reflexivity.
Defined.

Lemma chunk_identity_and_metadata_witness :
  let text := "first line" +:+ String "010" "second line" in
  let caller : gmap string pyval :=
    {[ "author_username" := PyStr "ann"; CHUNK_INDEX_KEY := PyStr "mine" ]} in
  let w := Reference.fresh ([] : list Document) in
  let run :=
    add_document_to_vectorstore (Reference.memory_index []) "post_32" text
                                caller w in
  let built := build_chunks "post_32" caller 0 ["first line"; "second line"]
                            [] [] in
  EvAddDocuments built.1 built.2 (Ok tt) ∈ new_events w run.2
  ∧ built.2 !! 1%nat = Some "post_32_chunk_1"
  ∧ ∃ d, built.1 !! 1%nat = Some d
         ∧ metadata d !! CHUNK_INDEX_KEY = Some (PyInt 1)
         ∧ metadata d !! ORIGINAL_DOC_ID_KEY = Some (PyStr "post_32")
         ∧ metadata d !! "author_username" = Some (PyStr "ann").
Proof.
  intros text caller w run built.
  assert (Hin : EvAddDocuments built.1 built.2 (Ok tt) ∈ new_events w run.2).
  { vm_compute. do 3 apply list_elem_of_further. apply list_elem_of_here. }
  split; [exact Hin|].
  destruct (chunk_identity_and_metadata (Reference.memory_index []) "post_32"
              text caller w built.1 built.2 (Ok tt) Hin) as [_ Hchunk].
  assert (Hd : built.1 !! 1%nat
               = Some (mkDocument "second line"
                         (<[CHUNK_INDEX_KEY := PyInt 1]>
                            (<[ORIGINAL_DOC_ID_KEY := PyStr "post_32"]> caller))
                         None)). { vm_compute. reflexivity. }
  destruct (Hchunk 1%nat _ Hd) as (Hkey & _ & Horig & Hindex & Hother).
  split. { vm_compute. vm_compute in Hkey. exact Hkey. }
  eexists. split; [exact Hd|].
  split; [exact Hindex|]. split; [exact Horig|].
  rewrite (Hother "author_username"); [reflexivity|discriminate..].
Defined.

Lemma chunk_indices_contiguous_witness :
  let text := "first line" +:+ String "010" "second line" in
  let caller : gmap string pyval := {[ "url" := PyStr "/posts/32/" ]} in
  let w := Reference.fresh ([] : list Document) in
  let run :=
    add_document_to_vectorstore (Reference.memory_index []) "post_32" text
                                caller w in
  let built := build_chunks "post_32" caller 0 ["first line"; "second line"]
                            [] [] in
  EvAddDocuments built.1 built.2 (Ok tt) ∈ new_events w run.2
  ∧ (λ d, metadata d !! CHUNK_INDEX_KEY) <$> built.1
    = [Some (PyInt 0); Some (PyInt 1)].
Proof.
  intros text caller w run built.
  assert (Hin : EvAddDocuments built.1 built.2 (Ok tt) ∈ new_events w run.2).
  { vm_compute. do 3 apply list_elem_of_further. apply list_elem_of_here. }
  split; [exact Hin|].
  pose proof (chunk_indices_contiguous (Reference.memory_index []) "post_32"
              text caller w built.1 built.2 (Ok tt) Hin) as H.
  destruct H as (sp & ch & H).
  destruct H as (_ & _ & Hindices & _).
  vm_compute in Hindices. vm_compute. exact Hindices.
Defined.

Lemma blank_text_not_indexed_witness :
  let text := String "009" (String " " (String "010" "")) in
  let caller : gmap string pyval := {[ "url" := PyStr "/posts/32/" ]} in
  let w := Reference.fresh ([] : list Document) in
  let run := add_document_to_vectorstore (Reference.memory_index []) "post_32"
                                         text caller w in
  run.1 = Ok tt ∧ only_logs w run.2 ∧ new_events w run.2 = [].
Proof.
  intros text caller w.
  apply (blank_text_not_indexed (Reference.memory_index []) "post_32" text
                                caller w).
  repeat constructor.
Defined.

(** ** Worked runs *)

Example split_post_id :
  PyStr.split "_" "post_12_extra" = ["post"; "12"; "extra"].
Proof. reflexivity. Qed.

Example int_accepts :
  PyStr.int " +1_000 " = Ok 1000 ∧ PyStr.int "-07" = Ok (-7)
  ∧ py_int (PyBool true) = Ok 1
  ∧ py_int (PyFloat (S754_finite true 7 (-1))) = Ok (-3).
Proof. repeat split; reflexivity. Qed.

Example int_rejects :
  PyStr.int "" = Raise ValueError ∧ PyStr.int "1__0" = Raise ValueError
  ∧ PyStr.int "12_" = Raise ValueError ∧ PyStr.int "1 2" = Raise ValueError
  ∧ py_int (PyFloat (S754_infinity false)) = Raise OverflowError.
Proof. repeat split; reflexivity. Qed.

Example slice_negative : py_slice [1; 2; 3; 4; 5] (-3) 4 = [3; 4].
Proof. reflexivity. Qed.

Example chunk_key_of_third_chunk : Spec.chunk_key "post_32" 2 = "post_32_chunk_2".
Proof. by vm_compute. Qed.

Example overlap_constant : FALLBACK_CHUNK_OVERLAP_CHARS = 1228.
Proof. reflexivity. Qed.

(** A mixed stream: duplicates, a comment resolved through its metadata,
    an unknown kind, a zero id, a hit without metadata. *)
Example semantic_search_mixed_stream :
  let stream :=
    [Reference.chunk "post_7" [];
     Reference.chunk "comment_9" [("post_id", PyStr "41")];
     Reference.chunk "widget_3" [];
     Reference.chunk "post_7" [];
     Reference.chunk "post_0" [];
     Reference.chunk "reply_3" [("post_id", PyInt 5)];
     mkDocument "" ∅ None;
     Reference.chunk "post_2" []] in
  let index := Reference.memory_index stream in
  (semantic_search index "dorm" 20 0 (Reference.fresh [])).1 = Ok [7; 41; 5; 2]
  ∧ (semantic_search index "dorm" 2 1 (Reference.fresh [])).1 = Ok [41; 5]
  ∧ (semantic_search index "dorm" 2 4 (Reference.fresh [])).1 = Ok [].
Proof. by_running. Qed.

Example unreachable_index_absorbed :
  (semantic_search Reference.unreachable "dorm" 20 0 (Reference.fresh tt)).1
  = Ok []
  ∧ (add_document_to_vectorstore Reference.unreachable "post_1" "text" ∅
       (Reference.fresh tt)).1 = Ok tt
  ∧ trace (semantic_search Reference.unreachable "dorm" 20 0
             (Reference.fresh tt)).2
    = [EvGoogleGenerativeAIEmbeddings "models/embedding-001" "key"
         (Raise (OtherException "ConnectionError"))].
Proof. by_running. Qed.

(** The largest limit of 4300 digits can be formatted, but its budget
    has 4301 digits: the log line cannot be formatted and no search is
    made. *)
Example oversized_limit_no_search :
  let index := Reference.memory_index Reference.long_post_first in
  let limit := INT_MAX_STR_BOUND - 1 in
  let run := semantic_search index "dorm" limit 0 (Reference.fresh []) in
  int_formattable limit = true
  ∧ int_formattable ((0 + limit) * 5) = false
  ∧ run.1 = Ok []
  ∧ filter (λ ev, is_search_event ev = true) (trace run.2) = [].
Proof. by_running. Qed.

(** * Further properties *)

(** ** The lazy singletons *)

Section Singletons.

Context {Embeddings VectorStore Ext : Type}.
Variable env : Collaborators Embeddings VectorStore Ext.

Local Abbreviation World := (World Embeddings VectorStore Ext).

(** X1: once [get_vector_store] has succeeded, every later call returns
    the same store without calling a collaborator and without changing
    anything. *)
Theorem get_vector_store_memoized (w : World) v :
  (get_vector_store env w).1 = Ok v →
  get_vector_store env (get_vector_store env w).2
  = (Ok v, (get_vector_store env w).2).
Proof.
  intros Hok. apply get_vector_store_cached.
  by apply (get_vector_store_run env w).
Qed.

(** X2: one call of [get_vector_store] constructs each singleton at most
    once; it never rebuilds an embedding function that is already cached
    and keeps the one it built even when the construction of the store
    fails afterwards, in which case the store stays unset for the next
    call to try again. *)
Theorem get_vector_store_retry (w : World) :
  let run := get_vector_store env w in
  let evs := new_events w run.2 in
  (length (filter (λ ev, is_embeddings_event ev = true) evs) ≤ 1)%nat
  ∧ (length (filter (λ ev, is_chroma_event ev = true) evs) ≤ 1)%nat
  ∧ (is_Some (_embedding_function w) →
     filter (λ ev, is_embeddings_event ev = true) evs = []
     ∧ _embedding_function run.2 = _embedding_function w)
  ∧ (∀ model key,
       EvGoogleGenerativeAIEmbeddings model key (Ok tt) ∈ evs →
       is_Some (_embedding_function run.2))
  ∧ (raised run.1 = true → _vector_store run.2 = None).
Proof.
  unfold get_vector_store, get_embedding_function, bind, lift, call,
    read_vector_store, read_embedding_function, new_events; simpl.
  destruct (_vector_store w) as [v|] eqn:Hv; simpl;
    [|destruct (_embedding_function w) as [e|] eqn:He; simpl;
      [|destruct (settings_EMBEDDING_API_KEY env) as [key|]; simpl;
        [destruct (GoogleGenerativeAIEmbeddings env _ key (ext w))
           as [[e|err] x]; simpl|]];
      try (destruct (settings_CHROMA_PERSIST_DIRECTORY env) as [dir|]; simpl;
           [match goal with
            | |- context [Chroma env ?c ?e ?d ?x] =>
                destruct (Chroma env c e d x) as [[v|err'] x']; simpl
            end|])];
    rewrite ?drop_all, <- ?app_assoc, ?drop_app_length;
    (split; [cbv; lia|]); (split; [cbv; lia|]);
    (split; [first [by intros [? [=]] | by intros _]|]);
    (split; [|done]);
    intros model key' Hin; simpl;
    first [by eexists
          | exfalso; repeat (apply elem_of_cons in Hin as [[=]|Hin]);
            by apply elem_of_nil in Hin].
Qed.

End Singletons.

Lemma get_vector_store_memoized_witness :
  let w := Reference.fresh ([] : list Document) in
  let index := Reference.memory_index [] in
  get_vector_store index (get_vector_store index w).2
  = (Ok tt, (get_vector_store index w).2).
Proof.
  intros w index. apply (get_vector_store_memoized index w tt). reflexivity.
Defined.

(** ** Deletion and retrieval *)

Section Traces.

Context {Embeddings VectorStore Ext : Type}.
Variable env : Collaborators Embeddings VectorStore Ext.

Local Abbreviation World := (World Embeddings VectorStore Ext).

Lemma filter_not_init_init evs :
  Forall (λ ev, is_init_event ev = true) evs →
  filter (λ ev, is_init_event ev = false) evs = [].
Proof.
  induction 1 as [|ev evs Hev _ IH]; [done|].
  rewrite filter_cons_False; [done|]. by rewrite Hev.
Qed.

(** One run of [delete_document_from_vectorstore]. *)
Lemma delete_document_run original_doc_id (w : World) :
  let run := delete_document_from_vectorstore env original_doc_id w in
  match get_vector_store env w with
  | (Ok v, w1) =>
      ∃ answer,
        trace run.2
        = trace w1
          ++ [EvDelete {[ ORIGINAL_DOC_ID_KEY := PyStr original_doc_id ]}
                       answer]
  | (Raise _, w1) => trace run.2 = trace w1
  end.
Proof.
  unfold delete_document_from_vectorstore, try_except, bind, call.
  destruct (get_vector_store env w) as [[v|e] w1]; simpl; [|done].
  destruct (delete env v _ (ext w1)) as [[[]|e] x]; simpl; by eexists.
Qed.

(** X3: apart from constructing the singletons, deletion issues exactly
    one call: a filtered delete whose filter is the single entry
    [original_doc_id = id]; it issues none when the store cannot be
    obtained. *)
Theorem delete_issues_one_filtered_delete original_doc_id (w : World) :
  let run := delete_document_from_vectorstore env original_doc_id w in
  let calls :=
    filter (λ ev, is_init_event ev = false) (new_events w run.2) in
  match (get_vector_store env w).1 with
  | Ok _ =>
      ∃ answer,
        calls = [EvDelete {[ ORIGINAL_DOC_ID_KEY := PyStr original_doc_id ]}
                          answer]
  | Raise _ => calls = []
  end.
Proof.
  intros run calls. subst run calls.
  pose proof (delete_document_run original_doc_id w) as Hrun.
  destruct (get_vector_store_run env w) as [(init & Htr & Hinit & _) _].
  destruct (get_vector_store env w) as [[v|e] w1]; simpl in *.
  - destruct Hrun as [answer Ht]. rewrite Htr, <- app_assoc in Ht.
    rewrite (new_events_app _ _ _ Ht), filter_app, filter_not_init_init
      by done.
    exists answer. by rewrite filter_cons_True.
  - rewrite Htr in Hrun.
    by rewrite (new_events_app _ _ _ Hrun), filter_not_init_init.
Qed.

(** X4: the filter of a deletion selects exactly the chunks that the
    indexer wrote for the same document id: the filter issued for [id2] is
    the single entry [original_doc_id = id2], a chunk handed to the index
    for [id1] carries [original_doc_id = id1] whatever metadata the caller
    supplied, and so the chunk matches the filter if and only if the two
    ids are equal. *)
Theorem delete_filter_selects_document
    id1 text caller (w1 : World) docs ids r1 d id2 (w2 : World) where_ r2 :
  EvAddDocuments docs ids r1
    ∈ new_events w1 (add_document_to_vectorstore env id1 text caller w1).2 →
  d ∈ docs →
  EvDelete where_ r2
    ∈ new_events w2 (delete_document_from_vectorstore env id2 w2).2 →
  where_ = {[ ORIGINAL_DOC_ID_KEY := PyStr id2 ]}
  ∧ metadata d !! ORIGINAL_DOC_ID_KEY = Some (PyStr id1)
  ∧ (Filter.matches where_ d = true ↔ id1 = id2).
Proof.
  intros Hadd Hd Hdel.
  destruct (inserted_batch _ _ _ _ _ _ _ _ Hadd) as (_ & chunks & _ & -> & _).
  apply list_elem_of_lookup in Hd as [i Hd].
  rewrite list_lookup_imap in Hd.
  destruct (chunks !! i) as [chunk_text|]; [|done]. injection Hd as <-.
  assert (where_ = {[ ORIGINAL_DOC_ID_KEY := PyStr id2 ]}) as ->.
  { pose proof (delete_document_run id2 w2) as Hrun.
    destruct (get_vector_store_run env w2) as [(init & Htr & Hinit & _) _].
    destruct (get_vector_store env w2) as [[v|e] w2']; simpl in *.
    - destruct Hrun as [answer Ht]. rewrite Htr, <- app_assoc in Ht.
      rewrite (new_events_app _ _ _ Ht) in Hdel.
      apply elem_of_app in Hdel as [Hdel|Hdel].
      + rewrite Forall_forall in Hinit. by apply Hinit in Hdel.
      + by apply list_elem_of_singleton in Hdel as [= -> _].
    - rewrite Htr in Hrun. rewrite (new_events_app _ _ _ Hrun) in Hdel.
      rewrite Forall_forall in Hinit. by apply Hinit in Hdel. }
  split; [done|]. simpl.
  split; [exact (proj1 (chunk_metadata_lookup caller id1 i))|].
  unfold Filter.matches. rewrite bool_decide_eq_true, map_Forall_singleton.
  simpl. rewrite (proj1 (chunk_metadata_lookup caller id1 i)).
  split; [by intros [= ->] | by intros ->].
Qed.

(** The common shape of the two retrievers, with the answer of the
    index. *)
Lemma guarded_search_trace {A}
    (search : VectorStore → Ext → result (list A) * Ext)
    (ev : result (list A) → Event) before values after failed (w : World) :
  let run :=
    try_except
      (bind (get_vector_store env) (λ vector_store,
       bind (log_f INFO before values) (λ _,
       bind (call (search vector_store) ev) (λ results,
       bind (log INFO after) (λ _, ret results)))))
      (λ e, bind (log ERROR failed) (λ _, ret [])) w in
  match get_vector_store env w with
  | (Ok v, w1) =>
      if formattable values then
        let answer := (search v (ext w1)).1 in
        run.1 = Ok (hits_or_nothing answer)
        ∧ trace run.2 = trace w1 ++ [ev answer]
        ∧ ext run.2 = (search v (ext w1)).2
      else run.1 = Ok [] ∧ trace run.2 = trace w1
  | (Raise _, w1) => run.1 = Ok [] ∧ trace run.2 = trace w1
  end.
Proof.
  unfold try_except, bind, call, log_f, lift, format_ints.
  destruct (get_vector_store env w) as [[v|e] w1]; simpl; [|done].
  destruct (formattable values); simpl; [|done].
  by destruct (search v (ext w1)) as [[results|e] x].
Qed.

Lemma search_events_of_run (w w1 w' : World) ev :
  init_run w w1 false → is_search_event ev = true →
  trace w' = trace w1 ++ [ev] →
  filter (λ ev, is_search_event ev = true) (new_events w w') = [ev].
Proof.
  intros (init & Htr & Hinit & _) Hev Ht. rewrite Htr, <- app_assoc in Ht.
  rewrite (new_events_app _ _ _ Ht), filter_app, filter_search_init by done.
  by rewrite filter_cons_True.
Qed.

Lemma search_events_of_failed_run (w w1 w' : World) :
  init_run w w1 false → trace w' = trace w1 →
  filter (λ ev, is_search_event ev = true) (new_events w w') = [].
Proof.
  intros (init & Htr & Hinit & _) Ht. rewrite Htr in Ht.
  by rewrite (new_events_app _ _ _ Ht), filter_search_init.
Qed.

Lemma init_run_weaken (w w1 : World) b : init_run w w1 b → init_run w w1 false.
Proof. intros (init & ? & ? & _). by exists init. Qed.

(** X5: [search_vectorstore] forwards its arguments unchanged in exactly
    one MMR search (no check that [fetch_k] is at least [k]) and returns
    the answer of the index as it is: the same hits in the same order. *)
Theorem search_vectorstore_forwards query k fetch_k lambda_mult (w : World) :
  let run := search_vectorstore env query k fetch_k lambda_mult w in
  let searches :=
    filter (λ ev, is_search_event ev = true) (new_events w run.2) in
  match get_vector_store env w with
  | (Ok v, w1) =>
      let answer :=
        (max_marginal_relevance_search env v query k fetch_k lambda_mult
           (ext w1)).1 in
      run.1 = Ok (hits_or_nothing answer)
      ∧ searches
        = [EvMaxMarginalRelevanceSearch query k fetch_k lambda_mult answer]
  | (Raise _, _) => run.1 = Ok [] ∧ searches = []
  end.
Proof.
  intros run searches. subst run searches.
  pose proof (guarded_search_trace
                (λ v, max_marginal_relevance_search env v query k fetch_k
                        lambda_mult)
                (EvMaxMarginalRelevanceSearch query k fetch_k lambda_mult)
                "Searching vector store with MMR for query" []
                "Found document chunks for query."
                "Error searching vector store for query" w) as Hrun.
  change (formattable []) with true in Hrun.
  pose proof (init_run_weaken _ _ _ (proj1 (get_vector_store_run env w)))
    as Hinit.
  destruct (get_vector_store env w) as [[v|e] w1]; simpl in *.
  - destruct Hrun as (Hr & Ht & _). split; [exact Hr|].
    by eapply search_events_of_run.
  - destruct Hrun as [Hr Ht]. split; [exact Hr|].
    by eapply search_events_of_failed_run.
Qed.

(** The two modes of [search_by_vector], with the answer of the index. *)
Lemma search_by_vector_run embedding_vector k fetch_k lambda_mult use_mmr
    (w : World) :
  let run :=
    search_by_vector env embedding_vector k fetch_k lambda_mult use_mmr w in
  match get_vector_store env w with
  | (Ok v, w1) =>
      if formattable [k; fetch_k] then
        let answer :=
          if use_mmr then
            max_marginal_relevance_search_by_vector env v embedding_vector k
              fetch_k lambda_mult (ext w1)
          else similarity_search_by_vector env v embedding_vector k (ext w1)
        in
        let ev :=
          if use_mmr then
            EvMaxMarginalRelevanceSearchByVector embedding_vector k fetch_k
              lambda_mult answer.1
          else EvSimilaritySearchByVector embedding_vector k answer.1 in
        run.1 = Ok (hits_or_nothing answer.1)
        ∧ trace run.2 = trace w1 ++ [ev]
        ∧ ext run.2 = answer.2
      else run.1 = Ok [] ∧ trace run.2 = trace w1
  | (Raise _, w1) => run.1 = Ok [] ∧ trace run.2 = trace w1
  end.
Proof.
  destruct use_mmr.
  - exact (guarded_search_trace
             (λ v, max_marginal_relevance_search_by_vector env v
                     embedding_vector k fetch_k lambda_mult)
             (EvMaxMarginalRelevanceSearchByVector embedding_vector k
                fetch_k lambda_mult)
             "Searching vector store with MMR by vector" [k; fetch_k]
             "Found document chunks by vector search."
             "Error searching vector store by vector" w).
  - exact (guarded_search_trace
             (λ v, similarity_search_by_vector env v embedding_vector k)
             (EvSimilaritySearchByVector embedding_vector k)
             "Searching vector store with MMR by vector" [k; fetch_k]
             "Found document chunks by vector search."
             "Error searching vector store by vector" w).
Qed.

(** X6: [search_by_vector] formats [k] and [fetch_k] into its log line
    first: when one of them has more than 4300 digits it returns [] and
    searches nothing.  Otherwise it issues exactly one search and returns
    the answer of the index as it is; with [use_mmr] it is an MMR search
    by vector with all four arguments, without it a plain similarity
    search by vector with [k] alone, so that any other formattable
    [fetch_k] and any other [lambda_mult] give the same result, the same
    calls and the same state of the index. *)
Theorem search_by_vector_modes embedding_vector k fetch_k lambda_mult use_mmr
    (w : World) :
  let run :=
    search_by_vector env embedding_vector k fetch_k lambda_mult use_mmr w in
  let searches :=
    filter (λ ev, is_search_event ev = true) (new_events w run.2) in
  match get_vector_store env w with
  | (Ok v, w1) =>
      if formattable [k; fetch_k] then
        if use_mmr then
          let answer :=
            (max_marginal_relevance_search_by_vector env v embedding_vector k
               fetch_k lambda_mult (ext w1)).1 in
          run.1 = Ok (hits_or_nothing answer)
          ∧ searches
            = [EvMaxMarginalRelevanceSearchByVector embedding_vector k fetch_k
                 lambda_mult answer]
        else
          let answer :=
            (similarity_search_by_vector env v embedding_vector k
               (ext w1)).1 in
          run.1 = Ok (hits_or_nothing answer)
          ∧ searches = [EvSimilaritySearchByVector embedding_vector k answer]
          ∧ ∀ fetch_k' lambda_mult',
              int_formattable fetch_k' = true →
              let run' :=
                search_by_vector env embedding_vector k fetch_k' lambda_mult'
                                 false w in
              run'.1 = run.1 ∧ trace run'.2 = trace run.2
              ∧ ext run'.2 = ext run.2
      else run.1 = Ok [] ∧ searches = []
  | (Raise _, _) => run.1 = Ok [] ∧ searches = []
  end.
Proof.
  intros run searches. subst run searches.
  pose proof (init_run_weaken _ _ _ (proj1 (get_vector_store_run env w)))
    as Hinit.
  pose proof (search_by_vector_run embedding_vector k fetch_k lambda_mult
                use_mmr w) as Hrun.
  pose proof (λ fetch_k' lambda_mult',
                search_by_vector_run embedding_vector k fetch_k' lambda_mult'
                  false w) as Hrun'.
  destruct (get_vector_store env w) as [[v|e] w1]; simpl in *.
  - destruct (formattable [k; fetch_k]) eqn:Hformat.
    + destruct use_mmr; destruct Hrun as (Hr & Ht & Hx);
        (split; [exact Hr|]).
      * by eapply search_events_of_run.
      * split; [by eapply search_events_of_run|].
        intros fetch_k' lambda_mult' Hformat'.
        specialize (Hrun' fetch_k' lambda_mult').
        assert (formattable [k; fetch_k'] = true) as Hboth.
        { unfold formattable in *. simpl in *.
          apply andb_true_iff in Hformat as [-> _]. by rewrite Hformat'. }
        rewrite Hboth in Hrun'. destruct Hrun' as (Hr' & Ht' & Hx').
        by rewrite Hr, Hr', Ht, Ht', Hx, Hx'.
    + destruct Hrun as [Hr Ht]. split; [exact Hr|].
      by eapply search_events_of_failed_run.
  - destruct Hrun as [Hr Ht]. split; [exact Hr|].
    by eapply search_events_of_failed_run.
Qed.

Lemma search_vectorstore_run_trace query k fetch_k lambda_mult (w : World) :
  let run := search_vectorstore env query k fetch_k lambda_mult w in
  match get_vector_store env w with
  | (Ok v, w1) =>
      trace run.2
      = trace w1
        ++ [EvMaxMarginalRelevanceSearch query k fetch_k lambda_mult
              (max_marginal_relevance_search env v query k fetch_k
                 lambda_mult (ext w1)).1]
  | (Raise _, w1) => trace run.2 = trace w1
  end.
Proof.
  pose proof (guarded_search_trace
                (λ v, max_marginal_relevance_search env v query k fetch_k
                        lambda_mult)
                (EvMaxMarginalRelevanceSearch query k fetch_k lambda_mult)
                "Searching vector store with MMR for query" []
                "Found document chunks for query."
                "Error searching vector store for query" w) as Hrun.
  change (formattable []) with true in Hrun.
  simpl. by destruct (get_vector_store env w) as [[v|e] w1];
    destruct Hrun as [_ Ht]; [destruct Ht as [Ht _]|].
Qed.

Lemma search_by_vector_run_trace embedding_vector k fetch_k lambda_mult
    use_mmr (w : World) :
  let run :=
    search_by_vector env embedding_vector k fetch_k lambda_mult use_mmr w in
  match get_vector_store env w with
  | (Ok v, w1) =>
      (∃ ev, is_search_event ev = true ∧ trace run.2 = trace w1 ++ [ev])
      ∨ trace run.2 = trace w1
  | (Raise _, w1) => trace run.2 = trace w1
  end.
Proof.
  pose proof (search_by_vector_run embedding_vector k fetch_k lambda_mult
                use_mmr w) as Hrun.
  simpl. destruct (get_vector_store env w) as [[v|e] w1]; simpl in *;
    [|by destruct Hrun].
  destruct (formattable [k; fetch_k]); [|right; by destruct Hrun].
  left. destruct Hrun as (_ & Ht & _). eexists. split; [|exact Ht].
  by destruct use_mmr.
Qed.

End Traces.

(** ** What the operations never do *)

Section Footprint.

Context {Embeddings VectorStore Ext : Type}.
Variable env : Collaborators Embeddings VectorStore Ext.

Local Abbreviation World := (World Embeddings VectorStore Ext).

Lemma footprint_of_run (P : Event → Prop) (w w1 w' : World) tail :
  (∀ ev, is_init_event ev = true → P ev) →
  init_run w w1 false → Forall P tail →
  trace w' = trace w1 ++ tail →
  Forall P (new_events w w').
Proof.
  intros HP (init & Htr & Hinit & _) Htail Ht.
  rewrite Htr, <- app_assoc in Ht. rewrite (new_events_app _ _ _ Ht).
  apply Forall_app. split; [|done].
  eapply Forall_impl; [exact Hinit | exact HP].
Qed.

(** X7: the three searches are read-only: besides constructing the
    singletons they call nothing but a search; they never insert, delete
    or split. *)
Theorem searches_are_read_only (w : World) :
  (∀ query k fetch_k lambda_mult,
     Forall init_or_search
       (new_events w (search_vectorstore env query k fetch_k lambda_mult w).2))
  ∧ (∀ query limit offset,
       Forall init_or_search
         (new_events w (semantic_search env query limit offset w).2))
  ∧ (∀ embedding_vector k fetch_k lambda_mult use_mmr,
       Forall init_or_search
         (new_events w (search_by_vector env embedding_vector k fetch_k
                          lambda_mult use_mmr w).2)).
Proof.
  pose proof (init_run_weaken _ _ _ (proj1 (get_vector_store_run env w)))
    as Hinit.
  assert (Hinit_ok : ∀ ev, is_init_event ev = true → init_or_search ev).
  { intros ev Hev. unfold init_or_search. by rewrite Hev. }
  split; [|split].
  - intros query k fetch_k lambda_mult.
    pose proof (search_vectorstore_run_trace env query k fetch_k lambda_mult w)
      as Hrun.
    destruct (get_vector_store env w) as [[v|e] w1]; simpl in *.
    + eapply footprint_of_run; [done..| |exact Hrun]. by repeat constructor.
    + eapply (footprint_of_run _ _ _ _ []); [done..|].
      by rewrite app_nil_r.
  - intros query limit offset.
    pose proof (semantic_search_run env query limit offset w) as Hrun.
    destruct (get_vector_store env w) as [[v|e] w1]; simpl in *.
    + destruct Hrun as [_ Hrun]. destruct (formattable _).
      * destruct Hrun as (Ht & _).
        eapply footprint_of_run; [done..| |exact Ht]. by repeat constructor.
      * destruct Hrun as (_ & Ht).
        eapply (footprint_of_run _ _ _ _ []); [done..|].
        by rewrite app_nil_r.
    + destruct Hrun as (_ & Ht).
      eapply (footprint_of_run _ _ _ _ []); [done..|].
      by rewrite app_nil_r.
  - intros embedding_vector k fetch_k lambda_mult use_mmr.
    pose proof (search_by_vector_run_trace env embedding_vector k fetch_k
                  lambda_mult use_mmr w) as Hrun.
    destruct (get_vector_store env w) as [[v|e] w1]; simpl in *.
    + destruct Hrun as [[ev [Hev Ht]]|Ht].
      * eapply footprint_of_run; [done..| |exact Ht].
        repeat constructor. unfold init_or_search. rewrite Hev.
        by rewrite orb_true_r.
      * eapply (footprint_of_run _ _ _ _ []); [done..|].
        by rewrite app_nil_r.
    + eapply (footprint_of_run _ _ _ _ []); [done..|].
      by rewrite app_nil_r.
Qed.

Local Arguments build_chunks : simpl never.

(** One run of [add_document_to_vectorstore], with what the splitter
    answered. *)
Lemma add_document_trace original_doc_id text caller (w : World) :
  let run := add_document_to_vectorstore env original_doc_id text caller w in
  ∃ init tail,
    trace run.2 = trace w ++ init ++ tail
    ∧ Forall (λ ev, is_init_event ev = true) init
    ∧ (tail = []
       ∨ (∃ splitter answer,
            tail = [EvSplitText splitter text answer]
            ∧ hits_or_nothing answer = [])
       ∨ (∃ splitter chunk chunks answer,
            let built := build_chunks original_doc_id caller 0
                                      (chunk :: chunks) [] [] in
            tail = [EvSplitText splitter text (Ok (chunk :: chunks));
                    EvAddDocuments built.1 built.2 answer]
            ∧ built.1 ≠ [])).
Proof.
  unfold add_document_to_vectorstore, try_except, bind, call,
    _get_text_splitter.
  destruct (_ || _); simpl.
  { exists [], []. rewrite !app_nil_r. auto. }
  destruct (get_vector_store_run env w) as [(init & Htr & Hinit & _) _].
  destruct (get_vector_store env w) as [[v|e] w1]; simpl in *.
  2:{ exists init, []. rewrite app_nil_r. auto. }
  destruct (split_text env _ text (ext w1)) as [[text_chunks|e] x]; simpl.
  2:{ eexists init, [_]. rewrite Htr, <- app_assoc.
      split; [done|]. split; [done|]. right; left. eauto. }
  destruct text_chunks as [|text1 rest]; simpl.
  { eexists init, [_]. rewrite Htr, <- app_assoc.
    split; [done|]. split; [done|]. right; left. eauto. }
  pose proof (build_chunks_imap original_doc_id caller 0 (text1 :: rest) [] [])
    as Himap.
  destruct (build_chunks original_doc_id caller 0 (text1 :: rest) [] [])
    as [documents_to_add chunk_ids_for_db] eqn:Hbuilt.
  injection Himap as Hdocs Hids.
  destruct documents_to_add as [|doc docs]; [done|]. simpl.
  destruct (add_documents env v (doc :: docs) chunk_ids_for_db x)
    as [[[]|e] x']; simpl.
  all: eexists init, [_; _]; rewrite Htr, <- !app_assoc; simpl;
    (split; [done|]); (split; [done|]); right; right;
    exists (RecursiveCharacterTextSplitter FALLBACK_CHUNK_SIZE_CHARS
              FALLBACK_CHUNK_OVERLAP_CHARS), text1, rest;
    eexists; rewrite Hbuilt; split; [reflexivity | done].
Qed.

Lemma filter_none {A} (P Q : A → Prop) `{∀ x, Decision (Q x)} l :
  Forall P l → (∀ x, P x → ¬ Q x) → filter Q l = [].
Proof.
  intros Hall HPQ. induction Hall as [|x l Hx _ IH]; [done|].
  rewrite filter_cons_False by auto. done.
Qed.

(** X8: one indexing call splits at most once and inserts at most once,
    as the last thing it does and never with an empty batch; it inserts
    nothing when the splitter fails or yields no chunk; and it never
    deletes or searches, so that chunks written earlier under the same id
    are left in place. *)
Theorem indexing_footprint original_doc_id text caller (w : World) :
  let run := add_document_to_vectorstore env original_doc_id text caller w in
  let evs := new_events w run.2 in
  Forall init_split_or_insert evs
  ∧ (length (filter (λ ev, is_split_event ev = true) evs) ≤ 1)%nat
  ∧ (length (filter (λ ev, is_insert_event ev = true) evs) ≤ 1)%nat
  ∧ (∀ docs ids answer,
       EvAddDocuments docs ids answer ∈ evs →
       docs ≠ [] ∧ last evs = Some (EvAddDocuments docs ids answer))
  ∧ (∀ splitter answer,
       EvSplitText splitter text answer ∈ evs →
       hits_or_nothing answer = [] →
       filter (λ ev, is_insert_event ev = true) evs = []).
Proof.
  intros run evs. subst run evs.
  destruct (add_document_trace original_doc_id text caller w)
    as (init & tail & Htr & Hinit & Htail).
  rewrite (new_events_app _ _ _ Htr).
  assert (Hsplit : filter (λ ev, is_split_event ev = true) init = []).
  { eapply filter_none; [exact Hinit|]. by intros []. }
  assert (Hinsert : filter (λ ev, is_insert_event ev = true) init = []).
  { eapply filter_none; [exact Hinit|]. by intros []. }
  assert (Hfoot : Forall init_split_or_insert init).
  { eapply Forall_impl; [exact Hinit|]. intros ev Hev.
    unfold init_split_or_insert. by rewrite Hev. }
  assert (Hnot : ∀ ev, ev ∈ init → is_init_event ev = true).
  { by apply Forall_forall. }
  rewrite !filter_app, Hsplit, Hinsert, Forall_app. simpl.
  destruct Htail
    as [->|[(sp & answer & -> & Hnone)
           |(sp & chunk & chunks & answer & -> & Hne)]];
    (split; [split; [done | by repeat constructor]|]);
    (split; [cbv; lia|]); (split; [cbv; lia|]); split.
  - intros docs ids answer Hin. rewrite app_nil_r in Hin.
    by apply Hnot in Hin.
  - intros sp answer Hin. rewrite app_nil_r in Hin. by apply Hnot in Hin.
  - intros docs ids r [Hin|Hin]%elem_of_app; [by apply Hnot in Hin|].
    by apply list_elem_of_singleton in Hin.
  - done.
  - intros docs ids r [Hin|Hin]%elem_of_app; [by apply Hnot in Hin|].
    apply elem_of_cons in Hin as [[=]|Hin].
    apply list_elem_of_singleton in Hin as [= -> -> ->].
    split; [done|]. by rewrite last_app.
  - intros sp' answer' [Hin|Hin]%elem_of_app; [by apply Hnot in Hin|].
    apply elem_of_cons in Hin as [Heq|Hin];
      [|by apply list_elem_of_singleton in Hin].
    injection Heq as _ ->. simpl. by intros [=].
Qed.

End Footprint.

(** ** Decimal numerals and chunk keys *)

Section Decimal.

Lemma list_ascii_of_string_app s1 s2 :
  list_ascii_of_string (s1 +:+ s2)
  = list_ascii_of_string s1 ++ list_ascii_of_string s2.
Proof.
  induction s1 as [|c s1 IH]; [done|].
  change (String c s1 +:+ s2) with (String c (s1 +:+ s2)).
  simpl. by rewrite IH.
Qed.

Lemma list_ascii_of_string_inj s1 s2 :
  list_ascii_of_string s1 = list_ascii_of_string s2 → s1 = s2.
Proof.
  intros Heq.
  by rewrite <- (string_of_list_ascii_of_string s1),
    <- (string_of_list_ascii_of_string s2), Heq.
Qed.

Lemma pretty_N_char_digit x : PyStr.isdigit (pretty_N_char x) = true.
Proof. unfold pretty_N_char. by repeat case_match. Qed.

Lemma pretty_N_char_value x :
  (x < 10)%N → PyStr.digit_value (pretty_N_char x) = Z.of_N x.
Proof.
  intros Hx.
  assert (x = 0 ∨ x = 1 ∨ x = 2 ∨ x = 3 ∨ x = 4 ∨ x = 5 ∨ x = 6 ∨ x = 7
          ∨ x = 8 ∨ x = 9)%N as Hcases by lia.
  repeat destruct Hcases as [->|Hcases]; try subst x; reflexivity.
Qed.

Lemma isdigit_not_underscore c : PyStr.isdigit c = true → c ≠ "_"%char.
Proof. by intros Hc ->. Qed.

Lemma isdigit_not_space c : PyStr.isdigit c = true → PyStr.int_isspace c = false.
Proof.
  destruct c as [[] [] [] [] [] [] [] []]; vm_compute; congruence.
Qed.

Lemma isdigit_not_sign c :
  PyStr.isdigit c = true →
  Ascii.eqb c "-"%char = false ∧ Ascii.eqb c "+"%char = false.
Proof.
  destruct c as [[] [] [] [] [] [] [] []]; vm_compute; intuition congruence.
Qed.

(** The numeral of [x] put in front of [s]: digits only, and read back by
    the integer parser as [x]. *)
Lemma pretty_N_go_decimal x s :
  ∃ d : nat,
    (∃ ds, list_ascii_of_string (pretty_N_go x s)
           = ds ++ list_ascii_of_string s
           ∧ length ds = d ∧ Forall (λ c, PyStr.isdigit c = true) ds)
    ∧ ((0 < x)%N → (0 < d)%nat)
    ∧ ∀ acc n,
        PyStr.digits (list_ascii_of_string (pretty_N_go x s)) acc n
        = PyStr.digits (list_ascii_of_string s)
                       (acc * 10 ^ Z.of_nat d + Z.of_N x) (n + d).
Proof.
  revert s. induction (N.lt_wf_0 x) as [x _ IH]; intros s.
  assert (x = 0 ∨ 0 < x)%N as [->|Hpos] by lia.
  { exists 0%nat. rewrite pretty_N_go_0. split; [by exists []|].
    split; [lia|]. intros acc n. f_equal; [simpl; lia | lia]. }
  rewrite pretty_N_go_step by done.
  destruct (IH (x `div` 10)%N (N.div_lt x 10 Hpos eq_refl)
              (String (pretty_N_char (x `mod` 10)) s))
    as (d & (ds & Hds & Hlen & Hall) & _ & Hdigits).
  exists (S d). split; [|split; [lia|]].
  - exists (ds ++ [pretty_N_char (x `mod` 10)%N]).
    rewrite Hds, <- app_assoc. split; [done|].
    split; [rewrite length_app; simpl; lia|].
    apply Forall_app. split; [done|].
    repeat constructor. apply pretty_N_char_digit.
  - intros acc n. rewrite Hdigits. simpl list_ascii_of_string.
    cbn [PyStr.digits]. rewrite pretty_N_char_digit.
    rewrite pretty_N_char_value by (by apply N.mod_lt).
    f_equal; [|lia].
    rewrite Nat2Z.inj_succ, Z.pow_succ_r by lia.
    rewrite (N.div_mod x 10) at 3 by done.
    rewrite N2Z.inj_add, N2Z.inj_mul. simpl Z.of_N. lia.
Qed.

Lemma pretty_nat_decimal (n : nat) :
  all_digits (pretty n) ∧ pretty n ≠ "".
Proof.
  unfold all_digits, pretty, pretty_nat, pretty, pretty_N.
  case_decide as Hn; [split; [by repeat constructor | done]|].
  destruct (pretty_N_go_decimal (N.of_nat n) "")
    as (d & (ds & Hds & Hlen & Hall) & Hpos & _).
  rewrite Hds. simpl. rewrite app_nil_r. split; [done|].
  intros Hempty. rewrite Hempty in Hds. simpl in Hds.
  rewrite app_nil_r in Hds. subst ds. simpl in Hlen. lia.
Qed.

Lemma pretty_nat_underscore_free (n : nat) : Spec.underscore_free (pretty n).
Proof.
  eapply Forall_impl; [apply pretty_nat_decimal|].
  intros c. apply isdigit_not_underscore.
Qed.

Lemma strip_by_clean sp cs :
  Forall (λ c, sp c = false) cs → PyStr.strip_by sp cs = cs.
Proof.
  intros Hall. unfold PyStr.strip_by.
  assert (Hl : ∀ l, Forall (λ c, sp c = false) l → PyStr.lstrip_by sp l = l).
  { intros [|c l] Hl; [done|]. simpl.
    by rewrite (Forall_inv Hl). }
  rewrite (Hl cs Hall), Hl, rev_involutive; [done|].
  apply Forall_forall. intros c Hc%list_elem_of_In%in_rev%list_elem_of_In.
  by eapply Forall_forall in Hall.
Qed.

(** [int(str(n))] is [n], for a numeral within the digit limit. *)
Lemma int_pretty (n : nat) :
  (String.length (pretty n) ≤ PyStr.INT_MAX_STR_DIGITS)%nat →
  PyStr.int (pretty n) = Ok (Z.of_nat n).
Proof.
  unfold pretty, pretty_nat, pretty, pretty_N.
  case_decide as Hn.
  { intros _. replace n with 0%nat by lia. reflexivity. }
  destruct (pretty_N_go_decimal (N.of_nat n) "")
    as (d & (ds & Hds & Hlen & Hall) & Hpos & Hdigits).
  simpl in Hds. rewrite app_nil_r in Hds.
  intros Hlimit.
  assert (String.length (pretty_N_go (N.of_nat n) "") = d) as Hd.
  { rewrite <- Hlen, <- Hds. clear.
    induction (pretty_N_go _ _) as [|c s IH]; simpl; by f_equal. }
  rewrite Hd in Hlimit.
  unfold PyStr.int. rewrite strip_by_clean.
  2:{ rewrite Hds. eapply Forall_impl; [exact Hall|].
      intros c. apply isdigit_not_space. }
  specialize (Hdigits 0 0%nat). rewrite Hds in Hdigits |- *.
  destruct ds as [|c ds]; [simpl in Hlen; lia|].
  destruct (isdigit_not_sign c (Forall_inv Hall)) as [-> ->].
  unfold PyStr.int_unsigned. rewrite (Forall_inv Hall), Hdigits. simpl.
  destruct (Nat.ltb_spec PyStr.INT_MAX_STR_DIGITS d); [lia|].
  f_equal. lia.
Qed.

Lemma chunk_key_inj id1 i1 id2 i2 :
  Spec.chunk_key id1 i1 = Spec.chunk_key id2 i2 → id1 = id2 ∧ i1 = i2.
Proof.
  unfold Spec.chunk_key. intros Hkey.
  apply (f_equal list_ascii_of_string) in Hkey.
  rewrite !list_ascii_of_string_app in Hkey.
  change (list_ascii_of_string "_chunk_")
    with (list_ascii_of_string "_chunk" ++ ["_"%char]) in Hkey.
  rewrite <- !(app_assoc (list_ascii_of_string "_chunk")) in Hkey.
  rewrite !(app_assoc (list_ascii_of_string _)
                      (list_ascii_of_string "_chunk")) in Hkey.
  simpl app in Hkey at 2 4.
  apply (f_equal reverse) in Hkey.
  rewrite !reverse_app, !reverse_cons, <- !app_assoc in Hkey. simpl in Hkey.
  assert (Hfree : ∀ i : nat,
            "_"%char ∉ reverse (list_ascii_of_string (pretty i))).
  { intros i Hin. rewrite elem_of_reverse in Hin.
    pose proof (pretty_nat_underscore_free i) as Hall.
    unfold Spec.underscore_free in Hall. rewrite Forall_forall in Hall. by apply Hall in Hin. }
  destruct (not_elem_of_app_cons_inv_l _ _ _ _ _ _ (Hfree i2) (Hfree i1) Hkey)
    as (Hdigits & _ & Hrest).
  injection Hrest as Hrest.
  apply (inj reverse) in Hrest. apply (inj reverse) in Hdigits.
  split.
  - by apply list_ascii_of_string_inj.
  - by apply (inj pretty), list_ascii_of_string_inj.
Qed.

End Decimal.

(** ** From the indexer to the aggregator *)

Section RoundTrips.

Context {Embeddings VectorStore Ext : Type}.
Variable env : Collaborators Embeddings VectorStore Ext.

Local Abbreviation World := (World Embeddings VectorStore Ext).

(** X9: chunk keys never collide: a key names one document id and one
    chunk index, across any two insertions and within one batch, for
    arbitrary document ids. *)
Theorem chunk_keys_unique id1 text1 caller1 (w1 : World) docs1 ids1 r1
    id2 text2 caller2 (w2 : World) docs2 ids2 r2 :
  EvAddDocuments docs1 ids1 r1
    ∈ new_events w1 (add_document_to_vectorstore env id1 text1 caller1 w1).2 →
  EvAddDocuments docs2 ids2 r2
    ∈ new_events w2 (add_document_to_vectorstore env id2 text2 caller2 w2).2 →
  (∀ i j key, ids1 !! i = Some key → ids2 !! j = Some key →
              id1 = id2 ∧ i = j)
  ∧ NoDup ids1.
Proof.
  intros Hadd1 Hadd2.
  destruct (inserted_batch _ _ _ _ _ _ _ _ Hadd1) as (_ & chunks1 & _ & _ & ->).
  destruct (inserted_batch _ _ _ _ _ _ _ _ Hadd2) as (_ & chunks2 & _ & _ & ->).
  split.
  - intros i j key Hi Hj. rewrite list_lookup_imap in Hi, Hj.
    destruct (chunks1 !! i); [|done]. destruct (chunks2 !! j); [|done].
    simpl in *. apply chunk_key_inj. congruence.
  - apply NoDup_alt. intros i j key Hi Hj. rewrite list_lookup_imap in Hi, Hj.
    destruct (chunks1 !! i); [|done]. destruct (chunks1 !! j); [|done].
    simpl in *. apply (chunk_key_inj id1 i id1 j). congruence.
Qed.

(** The chunks of an insertion, with their metadata. *)
Lemma inserted_chunk original_doc_id text caller (w : World) docs ids answer d :
  EvAddDocuments docs ids answer
    ∈ new_events w (add_document_to_vectorstore env original_doc_id text
                      caller w).2 →
  d ∈ docs →
  ∃ i, metadata d = Spec.chunk_metadata caller original_doc_id i.
Proof.
  intros Hadd Hd.
  destruct (inserted_batch _ _ _ _ _ _ _ _ Hadd) as (_ & chunks & _ & -> & _).
  apply list_elem_of_lookup in Hd as [i Hd]. rewrite list_lookup_imap in Hd.
  destruct (chunks !! i); [|done]. injection Hd as <-. by exists i.
Qed.

Lemma dict_get_chunk_metadata caller original_doc_id i :
  let m := Spec.chunk_metadata caller original_doc_id i in
  dict_get m ORIGINAL_DOC_ID_KEY = PyStr original_doc_id
  ∧ dict_get m "post_id" = dict_get caller "post_id"
  ∧ m !! "post_id" = caller !! "post_id".
Proof.
  intros m. subst m. unfold dict_get.
  destruct (chunk_metadata_lookup caller original_doc_id i) as (-> & _ & Hrest).
  by rewrite (Hrest "post_id").
Qed.

(** Hits that all resolve to one parent id aggregate to that id. *)
Lemma collect_unique_constant hits p st :
  Forall (λ d, parent_id d = p) hits → hits ≠ [] →
  collect_unique hits st = record_post_id p st.
Proof.
  intros Hall Hne.
  assert (Hidem : ∀ st', record_post_id p (record_post_id p st')
                         = record_post_id p st').
  { intros [u seen]. destruct p as [n|]; [|done].
    unfold record_post_id. simpl.
    destruct (Z.eqb_spec n 0) as [->|Hn]; simpl; [done|].
    destruct (decide (n ∈ seen)) as [Hin|Hin].
    - rewrite (bool_decide_eq_false_2 (n ∉ seen)) by auto. simpl.
      by rewrite bool_decide_eq_false_2 by auto.
    - rewrite (bool_decide_eq_true_2 (n ∉ seen)) by done. simpl.
      rewrite bool_decide_eq_false_2; [done|]. set_solver. }
  destruct hits as [|d hits]; [done|]. clear Hne.
  apply Forall_cons in Hall as [Hd Hall].
  change (collect_unique (d :: hits) st)
    with (collect_unique hits (record_post_id (parent_id d) st)).
  rewrite Hd. clear Hd d.
  induction Hall as [|d hits Hd _ IH]; [done|].
  change (collect_unique (d :: hits) (record_post_id p st))
    with (collect_unique hits
            (record_post_id (parent_id d) (record_post_id p st))).
  by rewrite Hd, Hidem.
Qed.

Lemma returned_stored_among docs ids :
  stored_among docs (Reference.returned docs ids).
Proof.
  unfold Reference.returned. revert ids.
  induction docs as [|doc docs IH]; intros [|key ids] hit Hin;
    try by apply elem_of_nil in Hin.
  simpl in Hin. apply elem_of_cons in Hin as [->|Hin].
  - exists doc. split; [apply list_elem_of_here | done].
  - destruct (IH ids hit Hin) as (doc' & Hdoc' & Hmeta).
    exists doc'. split; [by apply list_elem_of_further | done].
Qed.

Lemma stored_among_app docs hits1 hits2 :
  stored_among docs hits1 → stored_among docs hits2 →
  stored_among docs (hits1 ++ hits2).
Proof. intros H1 H2 hit [Hin|Hin]%elem_of_app; auto. Qed.

Lemma stored_among_reverse docs hits :
  stored_among docs hits → stored_among docs (reverse hits).
Proof. intros H hit Hin. apply H. by rewrite elem_of_reverse in Hin. Qed.

(** X10: the chunks that the indexer writes for the document id
    [post_<n>] are read back by the aggregator as the post [n]: however
    many of them a search returns, in whatever order and under whatever
    ids, the loop reports [n] once. *)
Theorem indexed_post_resolves (n : nat) text caller (w : World) docs ids answer
    hits (w' : World) :
  n ≠ 0%nat →
  (String.length (pretty n) ≤ PyStr.INT_MAX_STR_DIGITS)%nat →
  EvAddDocuments docs ids answer
    ∈ new_events w (add_document_to_vectorstore env ("post_" +:+ pretty n)
                      text caller w).2 →
  hits ≠ [] → stored_among docs hits →
  (for_each hits aggregate_chunk ([], ∅) w').1
  = Ok ([Z.of_nat n], {[ Z.of_nat n ]}).
Proof.
  intros Hn Hlimit Hadd Hne Hsub.
  rewrite (proj1 (for_each_aggregate _ _ _)). f_equal.
  rewrite (collect_unique_constant hits (Some (Z.of_nat n))); [| |done].
  - unfold record_post_id. simpl.
    destruct (Z.eqb_spec (Z.of_nat n) 0) as [|_]; [lia|]. simpl.
    rewrite bool_decide_eq_true_2 by set_solver.
    f_equal. by rewrite (left_id_L ∅ (∪)).
  - apply Forall_forall. intros hit (d & Hd & Hhit)%Hsub.
    destruct (inserted_chunk _ _ _ _ _ _ _ _ Hadd Hd) as [i Hmeta].
    pose proof (dict_get_chunk_metadata caller ("post_" +:+ pretty n) i)
      as (Hid & _). rewrite <- Hmeta, <- Hhit in Hid.
    unfold parent_id.
    rewrite (dict_get_nonempty _ _ _ Hid),
      (id_text_post hit (pretty n) Hid (pretty_nat_underscore_free n)).
    simpl. by rewrite int_pretty.
Qed.

(** X11: the chunks written for a [comment_] or [reply_] document keep
    the caller's [post_id] entry, and the aggregator reads them back as
    that post: hits returned for them, under whatever ids, aggregate to
    [int(post_id)] when the entry is truthy and converts to a non-zero
    integer, and to nothing otherwise, in particular when the caller
    supplied no [post_id]. *)
Theorem indexed_child_resolves original_doc_id text caller (w : World)
    docs ids answer hits (w' : World) :
  PyStr.startswith original_doc_id "comment_"
  || PyStr.startswith original_doc_id "reply_" = true →
  EvAddDocuments docs ids answer
    ∈ new_events w (add_document_to_vectorstore env original_doc_id text
                      caller w).2 →
  hits ≠ [] → stored_among docs hits →
  (for_each hits aggregate_chunk ([], ∅) w').1
  = Ok match caller !! "post_id" with
       | Some v =>
           if py_truthy v then
             match py_int v with
             | Ok p => if p =? 0 then ([], ∅) else ([p], {[ p ]})
             | Raise _ => ([], ∅)
             end
           else ([], ∅)
       | None => ([], ∅)
       end.
Proof.
  intros Hchild Hadd Hne Hsub.
  rewrite (proj1 (for_each_aggregate _ _ _)). f_equal.
  rewrite (collect_unique_constant hits
             (match caller !! "post_id" with
              | Some v =>
                  if py_truthy v then
                    match py_int v with Ok p => Some p | Raise _ => None end
                  else None
              | None => None
              end)); [| |done].
  - destruct (caller !! "post_id") as [v|]; [|done].
    destruct (py_truthy v); [|done].
    destruct (py_int v) as [p|]; [|done].
    unfold record_post_id. simpl. destruct (p =? 0); [done|]. simpl.
    rewrite bool_decide_eq_true_2 by set_solver.
    f_equal. by rewrite (left_id_L ∅ (∪)).
  - apply Forall_forall. intros hit (d & Hd & Hhit)%Hsub.
    destruct (inserted_chunk _ _ _ _ _ _ _ _ Hadd Hd) as [i Hmeta].
    pose proof (dict_get_chunk_metadata caller original_doc_id i)
      as (Hid & _ & Hpost). rewrite <- Hmeta, <- Hhit in Hid, Hpost.
    by rewrite (parent_id_child hit original_doc_id Hid Hchild), Hpost.
Qed.

End RoundTrips.

Section Reindexing.

Context {Embeddings VectorStore Ext : Type}.
Variable env : Collaborators Embeddings VectorStore Ext.

Local Abbreviation World := (World Embeddings VectorStore Ext).

(** X12: indexing a document again under the same id reuses the keys of
    its first chunks (so these chunks are overwritten), and the further
    keys of the longer batch name no chunk of the shorter one: as the
    indexer never deletes, a shorter re-index leaves them in the index. *)
Theorem reindex_reuses_keys original_doc_id
    text1 caller1 (w1 : World) docs1 ids1 r1
    text2 caller2 (w2 : World) docs2 ids2 r2 :
  EvAddDocuments docs1 ids1 r1
    ∈ new_events w1 (add_document_to_vectorstore env original_doc_id text1
                       caller1 w1).2 →
  EvAddDocuments docs2 ids2 r2
    ∈ new_events w2 (add_document_to_vectorstore env original_doc_id text2
                       caller2 w2).2 →
  (length docs1 ≤ length docs2)%nat →
  length ids1 = length docs1
  ∧ ids2 = ids1 ++ drop (length ids1) ids2
  ∧ ∀ key, key ∈ drop (length ids1) ids2 → key ∉ ids1.
Proof.
  intros Hadd1 Hadd2 Hlen.
  destruct (inserted_batch _ _ _ _ _ _ _ _ Hadd1)
    as (_ & chunks1 & _ & -> & ->).
  destruct (inserted_batch _ _ _ _ _ _ _ _ Hadd2)
    as (_ & chunks2 & _ & -> & ->).
  rewrite !length_imap in *. split; [done|].
  assert (Htake : imap (λ i _, Spec.chunk_key original_doc_id i) chunks1
                  = take (length chunks1)
                      (imap (λ i _, Spec.chunk_key original_doc_id i)
                            chunks2)).
  { apply list_eq. intros i.
    destruct (decide (i < length chunks1)%nat) as [Hi|Hi].
    - rewrite lookup_take_lt by done. rewrite !list_lookup_imap.
      destruct (lookup_lt_is_Some_2 chunks1 i Hi) as [c1 ->].
      destruct (lookup_lt_is_Some_2 chunks2 i ltac:(lia)) as [c2 ->].
      done.
    - rewrite lookup_take_ge by lia. rewrite list_lookup_imap.
      by rewrite (lookup_ge_None_2 chunks1) by lia. }
  split.
  - rewrite Htake at 1. by rewrite take_drop.
  - intros key [j Hj]%list_elem_of_lookup [i Hi]%list_elem_of_lookup.
    rewrite lookup_drop, list_lookup_imap in Hj.
    rewrite list_lookup_imap in Hi.
    destruct (chunks1 !! i) eqn:Hc1; [|done].
    destruct (chunks2 !! _); [|done]. simpl in *.
    apply lookup_lt_Some in Hc1.
    assert (Heq : Spec.chunk_key original_doc_id i
                  = Spec.chunk_key original_doc_id (length chunks1 + j))
      by congruence.
    apply chunk_key_inj in Heq as [_ Heq]. lia.
Qed.

End Reindexing.

(** ** Pages *)

Section Pages.

Import Spec.

Lemma slice_prefix {A} (l1 l2 : list A) n m :
  l1 `prefix_of` l2 → take n (drop m l1) `prefix_of` take n (drop m l2).
Proof.
  intros [k ->].
  destruct (decide (m ≤ length l1)%nat) as [Hle|Hgt].
  - rewrite drop_app_le by done. rewrite take_app.
    by apply prefix_app_r.
  - rewrite (drop_ge l1) by lia. rewrite take_nil. apply prefix_nil.
Qed.

Lemma take_prefix_le {A} (l : list A) n m :
  (n ≤ m)%nat → take n l `prefix_of` take m l.
Proof.
  intros Hnm. rewrite <- (Nat.min_l n m) by done.
  rewrite <- take_take. apply prefix_take.
Qed.

Lemma prefix_is_sublist {A} (l1 l2 : list A) :
  l1 `prefix_of` l2 → l1 `sublist_of` l2.
Proof. intros [k ->]. by apply sublist_inserts_r. Qed.

Lemma first_appearances_length ids :
  (length (first_appearances ids) ≤ length ids)%nat.
Proof.
  induction ids as [|x ids IH]; simpl; [done|].
  pose proof (length_filter (λ y, y ≠ x) (first_appearances ids)). lia.
Qed.

Lemma first_appearances_filter (P : Z → Prop) `{∀ x, Decision (P x)} ids :
  first_appearances (filter P ids) = filter P (first_appearances ids).
Proof.
  induction ids as [|x ids IH]; [done|]. simpl first_appearances at 2.
  destruct (decide (P x)) as [HP|HP].
  - rewrite !(filter_cons_True P) by done. simpl. f_equal.
    rewrite IH, !list_filter_filter. apply list_filter_iff. tauto.
  - rewrite !(filter_cons_False P) by done.
    rewrite IH, list_filter_filter. apply list_filter_iff.
    intros y. split; [|tauto]. intros Hy. split; [done|]. by intros ->.
Qed.

Lemma filter_length_impl {A} (P Q : A → Prop)
    `{∀ x, Decision (P x)} `{∀ x, Decision (Q x)} (l : list A) :
  (∀ x, P x → Q x) → (length (filter P l) ≤ length (filter Q l))%nat.
Proof.
  intros HPQ. induction l as [|a l IH]; [done|].
  destruct (decide (P a)) as [HP|HP].
  - rewrite filter_cons_True by done.
    rewrite (filter_cons_True Q) by auto. simpl. lia.
  - rewrite filter_cons_False by done.
    destruct (decide (Q a)).
    + rewrite (filter_cons_True Q) by done. simpl. lia.
    + by rewrite (filter_cons_False Q) by done.
Qed.

(** A list in which no id occurs more than [m] times is at most [m]
    times as long as its deduplication. *)
Lemma first_appearances_count (m : nat) ids :
  (∀ x, length (filter (λ y, y = x) ids) ≤ m)%nat →
  (length ids ≤ m * length (first_appearances ids))%nat.
Proof.
  remember (length ids) as n eqn:Hn. revert ids Hn.
  induction n as [n IH] using lt_wf_ind. intros ids Hn Hcount.
  destruct ids as [|x ids]; [simpl in *; lia|].
  simpl first_appearances. rewrite <- first_appearances_filter.
  pose proof (filter_app_complement (λ y, y = x) ids) as Hperm.
  apply Permutation_length in Hperm. rewrite length_app in Hperm.
  pose proof (Hcount x) as Hx. rewrite filter_cons_True in Hx by done.
  assert (length (filter (λ y, y ≠ x) ids)
          ≤ m * length (first_appearances (filter (λ y, y ≠ x) ids)))%nat
    as Hrest.
  { eapply IH; [|reflexivity|].
    - simpl in Hn. subst n.
      pose proof (length_filter (λ y, y ≠ x) ids). lia.
    - intros y. rewrite list_filter_filter.
      etrans; [|apply (Hcount y)].
      etrans; [apply (filter_length_impl _ (λ z, z = y)); tauto|].
      destruct (decide (x = y)) as [->|Hxy].
      + rewrite filter_cons_True by done. simpl. lia.
      + by rewrite filter_cons_False by done. }
  simpl in *. lia.
Qed.

Lemma ranked_ids_length hits : (length (ranked_ids hits) ≤ length hits)%nat.
Proof.
  unfold ranked_ids. etrans; [apply length_filter|].
  induction hits as [|h hits IH]; [done|].
  change (omap parent_id (h :: hits))
    with (match parent_id h with
          | Some n => n :: omap parent_id hits
          | None => omap parent_id hits
          end).
  destruct (parent_id h); simpl length; lia.
Qed.

End Pages.

Section Paging.

Context {Embeddings VectorStore Ext : Type}.
Variable env : Collaborators Embeddings VectorStore Ext.

Local Abbreviation World := (World Embeddings VectorStore Ext).

(** X13: when the searches of the runs are answered from one
    prefix-consistent ranking and the largest budget can be formatted,
    two consecutive pages never repeat or reorder an id: page [offset]
    followed by page [offset + limit] is a subsequence without duplicates
    of the double page [2 * limit, offset], and equals it whenever the
    first page is full. *)
Theorem consecutive_pages query top limit offset (w w' : World) :
  prefix_consistent top →
  raised (get_vector_store env w).1 = false →
  raised (get_vector_store env w').1 = false →
  0 ≤ limit → 0 ≤ offset →
  int_formattable ((offset + 2 * limit) * 5) = true →
  let page1 := semantic_search env query limit offset w in
  let page2 := semantic_search env query limit (offset + limit) page1.2 in
  let both := semantic_search env query (2 * limit) offset w' in
  answered_from top (new_events w page1.2) →
  answered_from top (new_events page1.2 page2.2) →
  answered_from top (new_events w' both.2) →
  ∃ ids1 ids2 ids,
    page1.1 = Ok ids1 ∧ page2.1 = Ok ids2 ∧ both.1 = Ok ids
    ∧ ids1 ++ ids2 `sublist_of` ids
    ∧ NoDup (ids1 ++ ids2)
    ∧ (length ids1 = Z.to_nat limit → ids1 ++ ids2 = ids).
Proof.
  intros Hprefix Hw Hw' Hlimit Hoffset Hformat page1 page2 both
    Htop1 Htop2 Htop3.
  assert (Hsmall : ∀ n, 0 ≤ n ≤ (offset + 2 * limit) * 5 →
                        int_formattable n = true).
  { intros n Hn. by eapply int_formattable_le. }
  assert (Hf : ∀ l o, 0 ≤ l → 0 ≤ o → o + l ≤ offset + 2 * limit →
                      formattable [(o + l) * 5; o; l] = true).
  { intros l o Hl Ho Hol. unfold formattable. simpl.
    rewrite !Hsmall by lia. done. }
  destruct (semantic_search_answered env query top limit offset w Hw)
    as [H1 [v Hv]]; [apply Hf; lia | exact Htop1 |].
  fold page1 in H1, Hv.
  assert (Hw1 : raised (get_vector_store env page1.2).1 = false).
  { by rewrite (get_vector_store_cached env _ v Hv). }
  destruct (semantic_search_answered env query top limit (offset + limit)
              page1.2 Hw1) as [H2 _]; [apply Hf; lia | exact Htop2 |].
  destruct (semantic_search_answered env query top (2 * limit) offset w' Hw')
    as [H3 _]; [apply Hf; lia | exact Htop3 |].
  fold page2 in H2. fold both in H3.
  replace ((offset + limit + limit) * 5) with ((offset + 2 * limit) * 5)
    in H2 by lia.
  set (U1 := Spec.first_appearances
               (Spec.ranked_ids (top ((offset + limit) * 5)))) in *.
  set (U2 := Spec.first_appearances
               (Spec.ranked_ids (top ((offset + 2 * limit) * 5)))) in *.
  assert (HU : U1 `prefix_of` U2).
  { apply unique_ids_prefix.
    destruct (decide (limit = 0)) as [->|Hpos].
    - by replace (offset + 2 * 0) with (offset + 0) by lia.
    - apply Hprefix. lia. }
  rewrite py_slice_nonneg in H1, H2, H3 by lia.
  replace (Z.to_nat (offset + limit - offset)) with (Z.to_nat limit)
    in H1 by lia.
  replace (Z.to_nat (offset + limit + limit - (offset + limit)))
    with (Z.to_nat limit) in H2 by lia.
  replace (Z.to_nat (offset + limit))
    with (Z.to_nat offset + Z.to_nat limit)%nat in H2 by lia.
  replace (Z.to_nat (offset + 2 * limit - offset))
    with (Z.to_nat limit + Z.to_nat limit)%nat in H3 by lia.
  rewrite <- drop_drop in H2. rewrite <- take_take_drop in H3.
  set (L := Z.to_nat limit) in *. set (O := Z.to_nat offset) in *.
  pose proof (slice_prefix U1 U2 L O HU) as Hp1.
  eexists _, _, _. split; [exact H1|]. split; [exact H2|].
  split; [exact H3|].
  assert (Hsub : take L (drop O U1) ++ take L (drop L (drop O U2))
                 `sublist_of`
                 take L (drop O U2) ++ take L (drop L (drop O U2))).
  { apply sublist_app; [by apply prefix_is_sublist | done]. }
  split; [exact Hsub|]. split.
  - eapply sublist_NoDup; [|exact Hsub].
    rewrite take_take_drop.
    eapply sublist_NoDup; [apply first_appearances_NoDup|].
    etrans; [apply sublist_take | apply sublist_drop].
  - intros Hfull. f_equal. apply prefix_length_eq; [done|].
    rewrite Hfull, length_take. lia.
Qed.

(** X14: when the searches of both runs are answered from one
    prefix-consistent ranking and the larger budget can be formatted,
    asking for more ids at the same offset only extends the page. *)
Theorem larger_limit_extends_page query top limit limit' offset (w w' : World) :
  prefix_consistent top →
  raised (get_vector_store env w).1 = false →
  raised (get_vector_store env w').1 = false →
  0 ≤ offset → 0 ≤ limit ≤ limit' →
  int_formattable ((offset + limit') * 5) = true →
  let page := semantic_search env query limit offset w in
  let page' := semantic_search env query limit' offset w' in
  answered_from top (new_events w page.2) →
  answered_from top (new_events w' page'.2) →
  ∃ ids ids', page.1 = Ok ids ∧ page'.1 = Ok ids' ∧ ids `prefix_of` ids'.
Proof.
  intros Hprefix Hw Hw' Hoffset Hlimit Hformat page page' Htop Htop'.
  assert (Hsmall : ∀ n, 0 ≤ n ≤ (offset + limit') * 5 →
                        int_formattable n = true).
  { intros n Hn. by eapply int_formattable_le. }
  assert (Hf : ∀ l, 0 ≤ l ≤ limit' →
                    formattable [(offset + l) * 5; offset; l] = true).
  { intros l Hl. unfold formattable. simpl. rewrite !Hsmall by lia. done. }
  destruct (semantic_search_answered env query top limit offset w Hw)
    as [H1 _]; [apply Hf; lia | exact Htop |].
  destruct (semantic_search_answered env query top limit' offset w' Hw')
    as [H2 _]; [apply Hf; lia | exact Htop' |].
  eexists _, _. split; [exact H1|]. split; [exact H2|].
  rewrite !py_slice_nonneg by lia.
  destruct (decide (limit = 0)) as [->|Hpos].
  { replace (Z.to_nat (offset + 0 - offset)) with 0%nat by lia.
    apply prefix_nil. }
  etrans.
  - apply slice_prefix, unique_ids_prefix,
      (Hprefix _ ((offset + limit') * 5)). lia.
  - apply take_prefix_le. lia.
Qed.

(** X15: a page is never longer than a non-negative [limit] (whatever the
    offset, negative ones included) nor than the number of hits fetched,
    and every id on it is the parent id of one of those hits. *)
Theorem page_bounds query limit offset (w : World) :
  let run := semantic_search env query limit offset w in
  let hits := hit_stream (new_events w run.2) in
  ∃ ids,
    run.1 = Ok ids
    ∧ (0 ≤ limit → (length ids ≤ Z.to_nat limit)%nat)
    ∧ (length ids ≤ length hits)%nat
    ∧ ∀ x, x ∈ ids → ∃ h, h ∈ hits ∧ parent_id h = Some x.
Proof.
  intros run hits. subst run hits. eexists.
  split; [apply semantic_search_result|].
  rewrite collect_unique_spec.
  set (hits := hit_stream _).
  set (U := Spec.first_appearances (Spec.ranked_ids hits)).
  split; [|split].
  - intros Hlimit. unfold py_slice. rewrite length_take.
    etrans; [apply Nat.le_min_l|]. unfold slice_bound.
    destruct (Z.ltb_spec offset 0), (Z.ltb_spec (offset + limit) 0); lia.
  - etrans; [apply sublist_length, py_slice_sublist|].
    etrans; [apply first_appearances_length | apply ranked_ids_length].
  - intros x Hx.
    eapply elem_of_sublist in Hx; [|apply py_slice_sublist].
    subst U. rewrite first_appearances_elem_of in Hx.
    unfold Spec.ranked_ids in Hx. rewrite list_elem_of_filter in Hx.
    destruct Hx as [_ Hx]. by rewrite list_elem_of_omap in Hx.
Qed.

(** X16: the over-fetch factor is enough when no post holds more than
    five of the fetched chunks: if the hits resolve to at least
    [(offset + limit) * 5] ids and no id occurs more than five times
    among them, the page is full. *)
Theorem full_page_when_few_chunks_per_post query limit offset (w : World) :
  let run := semantic_search env query limit offset w in
  let ids := Spec.ranked_ids (hit_stream (new_events w run.2)) in
  0 ≤ limit → 0 ≤ offset →
  (Z.to_nat ((offset + limit) * 5) ≤ length ids)%nat →
  (∀ p, length (filter (λ q, q = p) ids) ≤ 5)%nat →
  ∃ page, run.1 = Ok page ∧ length page = Z.to_nat limit.
Proof.
  intros run ids Hlimit Hoffset Hmany Hfew. subst run ids. eexists.
  split; [apply semantic_search_result|].
  rewrite collect_unique_spec.
  pose proof (first_appearances_count 5 _ Hfew) as Hcount.
  rewrite py_slice_nonneg by lia.
  rewrite length_take, length_drop. lia.
Qed.

End Paging.

(** ** Runs of the in-memory index *)

Lemma delete_filter_selects_document_witness :
  let text := "first line" +:+ String "010" "second line" in
  let caller : gmap string pyval :=
    {[ "author_username" := PyStr "ann";
       ORIGINAL_DOC_ID_KEY := PyStr "post_1" ]} in
  let index := Reference.memory_index [] in
  let w := Reference.fresh ([] : list Document) in
  let added := add_document_to_vectorstore index "post_32" text caller w in
  let built := build_chunks "post_32" caller 0 ["first line"; "second line"]
                            [] [] in
  let where_ : gmap string pyval := {[ ORIGINAL_DOC_ID_KEY := PyStr "post_32" ]} in
  let deleted := delete_document_from_vectorstore index "post_32" added.2 in
  EvAddDocuments built.1 built.2 (Ok tt) ∈ new_events w added.2
  ∧ EvDelete where_ (Ok tt) ∈ new_events added.2 deleted.2
  ∧ Forall (λ d, Filter.matches where_ d = true) built.1.
Proof.
  intros text caller index w added built where_ deleted.
  assert (Hadd : EvAddDocuments built.1 built.2 (Ok tt)
                 ∈ new_events w added.2).
  { vm_compute. do 3 apply list_elem_of_further. apply list_elem_of_here. }
  assert (Hdel : EvDelete where_ (Ok tt) ∈ new_events added.2 deleted.2).
  { vm_compute. apply list_elem_of_here. }
  split; [exact Hadd|]. split; [exact Hdel|].
  apply Forall_forall. intros d Hd.
  apply (delete_filter_selects_document index "post_32" text caller w
           built.1 built.2 (Ok tt) d "post_32" added.2 where_ (Ok tt)
           Hadd Hd Hdel).
  reflexivity.
Defined.

Lemma chunk_keys_unique_witness :
  let text := "first line" +:+ String "010" "second line" in
  let caller : gmap string pyval := {[ "url" := PyStr "/posts/1/" ]} in
  let index := Reference.memory_index [] in
  let w := Reference.fresh ([] : list Document) in
  let run1 := add_document_to_vectorstore index "post_1" text caller w in
  let run2 := add_document_to_vectorstore index "post_1_chunk_1" text caller
                                          run1.2 in
  let built1 := build_chunks "post_1" caller 0 ["first line"; "second line"]
                             [] [] in
  let built2 := build_chunks "post_1_chunk_1" caller 0
                             ["first line"; "second line"] [] [] in
  EvAddDocuments built1.1 built1.2 (Ok tt) ∈ new_events w run1.2
  ∧ EvAddDocuments built2.1 built2.2 (Ok tt) ∈ new_events run1.2 run2.2
  ∧ (∀ key, key ∈ built1.2 → key ∉ built2.2)
  ∧ NoDup built1.2.
Proof.
  intros text caller index w run1 run2 built1 built2.
  assert (H1 : EvAddDocuments built1.1 built1.2 (Ok tt)
               ∈ new_events w run1.2).
  { vm_compute. do 3 apply list_elem_of_further. apply list_elem_of_here. }
  assert (H2 : EvAddDocuments built2.1 built2.2 (Ok tt)
               ∈ new_events run1.2 run2.2).
  { vm_compute. apply list_elem_of_further. apply list_elem_of_here. }
  split; [exact H1|]. split; [exact H2|].
  destruct (chunk_keys_unique index "post_1" text caller w
              built1.1 built1.2 (Ok tt) "post_1_chunk_1" text caller run1.2
              built2.1 built2.2 (Ok tt) H1 H2) as [Hkeys Hnodup].
  split; [|exact Hnodup].
  intros key [i Hi]%list_elem_of_lookup [j Hj]%list_elem_of_lookup.
  by destruct (Hkeys i j key Hi Hj) as [[=] _].
Defined.

Lemma indexed_post_resolves_witness :
  let text := "first line" +:+ String "010" "second line" in
  let caller : gmap string pyval := {[ "post_id" := PyStr "99" ]} in
  let index := Reference.memory_index [] in
  let w := Reference.fresh ([] : list Document) in
  let run := add_document_to_vectorstore index ("post_" +:+ pretty 32%nat)
                                         text caller w in
  let built := build_chunks ("post_" +:+ pretty 32%nat) caller 0
                            ["first line"; "second line"] [] [] in
  let hits := Reference.returned built.1 built.2 in
  EvAddDocuments built.1 built.2 (Ok tt) ∈ new_events w run.2
  ∧ id <$> hits = [Some "post_32_chunk_0"; Some "post_32_chunk_1"]
  ∧ (for_each (reverse hits ++ hits) aggregate_chunk ([], ∅) run.2).1
    = Ok ([32], {[ 32 ]}).
Proof.
  intros text caller index w run built hits.
  assert (Hin : EvAddDocuments built.1 built.2 (Ok tt) ∈ new_events w run.2).
  { vm_compute. do 3 apply list_elem_of_further. apply list_elem_of_here. }
  split; [exact Hin|]. split; [by vm_compute|].
  apply (indexed_post_resolves index 32 text caller w built.1 built.2 (Ok tt)
           (reverse hits ++ hits) run.2).
  - discriminate.
  - vm_compute. lia.
  - exact Hin.
  - vm_compute. discriminate.
  - apply stored_among_app; [apply stored_among_reverse|];
      apply returned_stored_among.
Defined.

Lemma indexed_child_resolves_witness :
  let text := "first line" +:+ String "010" "second line" in
  let caller : gmap string pyval := {[ "post_id" := PyInt 32 ]} in
  let index := Reference.memory_index [] in
  let w := Reference.fresh ([] : list Document) in
  let run := add_document_to_vectorstore index "comment_5" text caller w in
  let orphan := add_document_to_vectorstore index "reply_6" text ∅ w in
  let built := build_chunks "comment_5" caller 0
                            ["first line"; "second line"] [] [] in
  let lost := build_chunks "reply_6" ∅ 0 ["first line"; "second line"] [] [] in
  (for_each (Reference.returned built.1 built.2) aggregate_chunk ([], ∅)
            run.2).1 = Ok ([32], {[ 32 ]})
  ∧ (for_each (Reference.returned lost.1 lost.2) aggregate_chunk ([], ∅)
              orphan.2).1 = Ok ([], ∅).
Proof.
  intros text caller index w run orphan built lost. split.
  - assert (Hin : EvAddDocuments built.1 built.2 (Ok tt)
                  ∈ new_events w run.2).
    { vm_compute. do 3 apply list_elem_of_further. apply list_elem_of_here. }
    etrans.
    + apply (indexed_child_resolves index "comment_5" text caller w
               built.1 built.2 (Ok tt) (Reference.returned built.1 built.2)
               run.2);
        [reflexivity | exact Hin | vm_compute; discriminate
        | apply returned_stored_among].
    + vm_compute. reflexivity.
  - assert (Hin : EvAddDocuments lost.1 lost.2 (Ok tt)
                  ∈ new_events w orphan.2).
    { vm_compute. do 3 apply list_elem_of_further. apply list_elem_of_here. }
    etrans.
    + apply (indexed_child_resolves index "reply_6" text ∅ w
               lost.1 lost.2 (Ok tt) (Reference.returned lost.1 lost.2)
               orphan.2);
        [reflexivity | exact Hin | vm_compute; discriminate
        | apply returned_stored_among].
    + vm_compute. reflexivity.
Defined.

Lemma consecutive_pages_witness :
  let index := Reference.memory_index Reference.long_post_first in
  let page1 := semantic_search index "dorm" 1 0 (Reference.fresh []) in
  let page2 := semantic_search index "dorm" 1 1 page1.2 in
  let both := semantic_search index "dorm" 2 0 (Reference.fresh []) in
  ∃ ids1 ids2 ids,
    page1.1 = Ok ids1 ∧ page2.1 = Ok ids2 ∧ both.1 = Ok ids
    ∧ ids1 ++ ids2 `sublist_of` ids
    ∧ NoDup (ids1 ++ ids2)
    ∧ (length ids1 = Z.to_nat 1 → ids1 ++ ids2 = ids).
Proof.
  apply (consecutive_pages
           (Reference.memory_index Reference.long_post_first) "dorm"
           (λ k, take (Z.to_nat k) Reference.long_post_first)).
  - intros n m Hnm. apply take_prefix_consistent. lia.
  - reflexivity.
  - reflexivity.
  - lia.
  - lia.
  - by vm_compute.
  - apply memory_index_answered.
  - apply memory_index_answered.
  - apply memory_index_answered.
Defined.

Lemma larger_limit_extends_page_witness :
  let index := Reference.memory_index Reference.long_post_first in
  ∃ ids ids',
    (semantic_search index "dorm" 1 0 (Reference.fresh [])).1 = Ok ids
    ∧ (semantic_search index "dorm" 3 0 (Reference.fresh [])).1 = Ok ids'
    ∧ ids `prefix_of` ids'.
Proof.
  apply (larger_limit_extends_page
           (Reference.memory_index Reference.long_post_first) "dorm"
           (λ k, take (Z.to_nat k) Reference.long_post_first)).
  - intros n m Hnm. apply take_prefix_consistent. lia.
  - reflexivity.
  - reflexivity.
  - lia.
  - lia.
  - by vm_compute.
  - apply memory_index_answered.
  - apply memory_index_answered.
Defined.

Lemma full_page_when_few_chunks_per_post_witness :
  let index := Reference.memory_index (drop 7 Reference.long_post_first) in
  let run := semantic_search index "dorm" 1 0 (Reference.fresh []) in
  ∃ page, run.1 = Ok page ∧ length page = Z.to_nat 1.
Proof.
  intros index.
  apply (full_page_when_few_chunks_per_post index "dorm" 1 0
           (Reference.fresh [])).
  - lia.
  - lia.
  - vm_compute. lia.
  - intros p. etrans; [apply length_filter|]. vm_compute. lia.
Defined.

Lemma reindex_reuses_keys_witness :
  let long := "first line" +:+ String "010" "second line" in
  let caller : gmap string pyval := {[ "url" := PyStr "/posts/1/" ]} in
  let index := Reference.memory_index [] in
  let w := Reference.fresh ([] : list Document) in
  let run1 := add_document_to_vectorstore index "post_1" "edited" caller w in
  let run2 := add_document_to_vectorstore index "post_1" long caller w in
  let built1 := build_chunks "post_1" caller 0 ["edited"] [] [] in
  let built2 := build_chunks "post_1" caller 0 ["first line"; "second line"]
                             [] [] in
  length built1.2 = length built1.1
  ∧ built2.2 = built1.2 ++ drop (length built1.2) built2.2
  ∧ ∀ key, key ∈ drop (length built1.2) built2.2 → key ∉ built1.2.
Proof.
  intros long caller index w run1 run2 built1 built2.
  assert (H1 : EvAddDocuments built1.1 built1.2 (Ok tt)
               ∈ new_events w run1.2).
  { vm_compute. do 3 apply list_elem_of_further. apply list_elem_of_here. }
  assert (H2 : EvAddDocuments built2.1 built2.2 (Ok tt)
               ∈ new_events w run2.2).
  { vm_compute. do 3 apply list_elem_of_further. apply list_elem_of_here. }
  apply (reindex_reuses_keys index "post_1" "edited" caller w
           built1.1 built1.2 (Ok tt) long caller w
           built2.1 built2.2 (Ok tt) H1 H2).
  vm_compute. lia.
Defined.
